(** * encode_oneshot: the PFM reader and the one-shot encoder drain

    A shallow embedding of [examples/encode_oneshot.cc] (libjxl): the
    Portable FloatMap reader [ReadPFM] and the encoder driver
    [EncodeJxlOneshot] with its output-buffer doubling loop.

    Conventions of the embedding (an LP64 platform):
    - [uint32_t] values are integers in [0, 2^32) and every operation on
      them is reduced modulo 2^32; [int] is 32-bit two's complement;
      [size_t] is reduced modulo 2^64;
    - a [float] object is its object representation, the four bytes that
      [memcpy] moves; no floating-point arithmetic occurs in the program;
    - a [std::vector] is a list; [resize] keeps the common prefix and
      value-initialises new elements, and throws [std::length_error]
      beyond [max_size()];
    - a call either returns, leaves by a C++ exception, or has undefined
      behaviour (an out-of-bounds [memcpy]). *)

From Stdlib Require Import ZArith Lia Bool String.
From Stdlib Require Import Strings.Byte.
From stdpp Require Import base list.

Local Open Scope Z_scope.

(** ** Machine integers *)

Module Mach.

Definition INT_MIN : Z := -2147483648.
Definition INT_MAX : Z := 2147483647.
Definition LONG_MAX : Z := 9223372036854775807.
Definition two32 : Z := 4294967296.
Definition two64 : Z := 18446744073709551616.

(** Conversion to [uint32_t]: reduction modulo 2^32. *)
Definition to_uint32 (z : Z) : Z := z mod two32.

(** Conversion to [int] (two's complement wrap). *)
Definition to_int (z : Z) : Z :=
  let u := z mod two32 in
  if u <? 2147483648 then u else u - two32.

(** Conversion to [size_t] (64 bits). *)
Definition to_size_t (z : Z) : Z := z mod two64.

Definition u32_add (a b : Z) : Z := to_uint32 (a + b).
Definition u32_sub (a b : Z) : Z := to_uint32 (a - b).
Definition u32_mul (a b : Z) : Z := to_uint32 (a * b).
Definition size_add (a b : Z) : Z := to_size_t (a + b).
Definition size_sub (a b : Z) : Z := to_size_t (a - b).
Definition size_mul (a b : Z) : Z := to_size_t (a * b).

End Mach.
Import Mach.

(** ** Outcomes of a call *)

Inductive exn : Type :=
| invalid_argument
| out_of_range
| length_error.

Inductive outcome (A : Type) : Type :=
| Normal (a : A)
| Throws (e : exn)
| Undefined.
Arguments Normal {A} a.
Arguments Throws {A} e.
Arguments Undefined {A}.

#[global] Instance outcome_ret : MRet outcome := fun _ a => Normal a.

#[global] Instance outcome_bind : MBind outcome := fun _ _ k m =>
  match m with
  | Normal a => k a
  | Throws e => Throws e
  | Undefined => Undefined
  end.

(** [for (int i = start; ...; i += step) body], run for [n] iterations. *)
Fixpoint for_count {S : Type} (n : nat) (i step : Z)
    (body : Z -> S -> outcome S) (s : S) : outcome S :=
  match n with
  | O => Normal s
  | Datatypes.S n' => s' ← body i s; for_count n' (i + step) step body s'
  end.

(** ** Bytes, strings and vectors *)

Definition bytes : Type := list byte.

Definition str (s : string) : bytes := list_byte_of_string s.

Definition NL : byte := x0a.
Definition SP : byte := x20.

Fixpoint bytes_eqb (a b : bytes) : bool :=
  match a, b with
  | [], [] => true
  | x :: a', y :: b' => Byte.eqb x y && bytes_eqb a' b'
  | _, _ => false
  end.

Definition len {A} (l : list A) : Z := Z.of_nat (length l).

(** [v.resize(n)] with value-initialisation [z] of new elements. *)
Definition vector_resize {A} (z : A) (n : Z) (v : list A) : list A :=
  take (Z.to_nat n) v ++ replicate (Z.to_nat n - length v) z.

(** A [float] as the four bytes of its object representation. *)
Definition float : Type := (byte * byte * byte * byte)%type.
Definition float_zero : float := (x00, x00, x00, x00).

(** ** std::getline on a std::stringstream *)

Record istream : Type := { rest : bytes; good : bool }.

Fixpoint split_delim (delim : byte) (l : bytes) : bytes * option bytes :=
  match l with
  | [] => ([], None)
  | b :: l' =>
      if Byte.eqb b delim then ([], Some l')
      else let '(tok, r) := split_delim delim l' in (b :: tok, r)
  end.

(** Extracts up to and including [delim] (the delimiter is dropped).
    Reaching the end of the data sets eofbit, after which the stream is
    no longer good and every later call leaves its (empty) string as is. *)
Definition getline (s : istream) (delim : byte) : bytes * istream :=
  if good s then
    match split_delim delim (rest s) with
    | (tok, Some r) => (tok, {| rest := r; good := true |})
    | (tok, None) => (tok, {| rest := []; good := false |})
    end
  else ([], s).

(** ** std::stoi *)

Definition isspace (b : byte) : bool :=
  let n := Z.of_N (Byte.to_N b) in (n =? 32) || ((9 <=? n) && (n <=? 13)).

Definition isdigit (b : byte) : bool :=
  let n := Z.of_N (Byte.to_N b) in (48 <=? n) && (n <=? 57).

Definition digit_val (b : byte) : Z := Z.of_N (Byte.to_N b) - 48.

Fixpoint skip_space (l : bytes) : bytes :=
  match l with
  | b :: l' => if isspace b then skip_space l' else l
  | [] => []
  end.

Fixpoint parse_digits (acc : Z) (l : bytes) : Z :=
  match l with
  | b :: l' => if isdigit b then parse_digits (10 * acc + digit_val b) l' else acc
  | [] => acc
  end.

(** [std::stoi(s)]: [strtol] in base 10 (leading white space, an optional
    sign, then digits; what follows is ignored), [std::invalid_argument]
    when there is no digit, [std::out_of_range] outside [int]. *)
Definition stoi (s : bytes) : outcome Z :=
  let s1 := skip_space s in
  let '(neg, s2) :=
    match s1 with
    | b :: r =>
        if Byte.eqb b x2d then (true, r)
        else if Byte.eqb b x2b then (false, r)
        else (false, s1)
    | [] => (false, s1)
    end in
  match s2 with
  | b :: _ =>
      if isdigit b then
        let m := parse_digits 0 s2 in
        let v := if neg then - m else m in
        if (v <? INT_MIN) || (INT_MAX <? v) then Throws out_of_range
        else Normal v
      else Throws invalid_argument
  | [] => Throws invalid_argument
  end.

(** ** ReadPFM *)

(** What the C library reports for the file named by [filename]. *)
Record file : Type := {
  fopen_ok : bool;
  fseek_end_ok : bool;
  ftell_size : Z;
  fseek_set_ok : bool;
  contents : bytes;
  fclose_ok : bool
}.

(** The messages [ReadPFM] prints on stderr. *)
Inductive diag : Type :=
| CouldNotOpen
| MissingPF
| BadEndiannessToken
| SizeMismatch (actual ys xs off expected : Z)
| DifferentEndianness.

(** The state a call leaves behind: the return value, the three
    out-parameters and the message printed, if any. *)
Record read_result : Type := {
  ret : bool;
  pixels : list float;
  xsize : Z;
  ysize : Z;
  message : option diag
}.

Definition memcpy_float (data : bytes) (offset : Z) : option float :=
  match drop (Z.to_nat offset) data with
  | b0 :: b1 :: b2 :: b3 :: _ => Some (b0, b1, b2, b3)
  | _ => None
  end.

(** [memcpy(pixels->data() + idx, data.data() + offset, sizeof(float))]
    followed by [offset += sizeof(float)]. *)
Definition copy_sample (data : bytes) (idx : Z) (st : list float * Z)
    : outcome (list float * Z) :=
  let '(px, offset) := st in
  match memcpy_float data offset with
  | Some v =>
      if idx <? len px
      then Normal (<[Z.to_nat idx := v]> px, size_add offset 4)
      else Undefined
  | None => Undefined
  end.

Definition pixel_index (xs y x c : Z) : Z :=
  u32_add (u32_mul (u32_add (u32_mul (to_uint32 y) xs) (to_uint32 x)) 3)
          (to_uint32 c).

Definition copy_pixels (data : bytes) (xs ys : Z) (px : list float)
    (offset : Z) : outcome (list float * Z) :=
  let y0 := to_int (u32_sub ys 1) in
  for_count (Z.to_nat (y0 + 1)) y0 (-1) (fun y =>
    for_count (Z.to_nat (to_int xs)) 0 1 (fun x =>
      for_count 3 0 1 (fun c =>
        copy_sample data (pixel_index xs y x c))))
  (px, offset).

(** First byte of the object representation of [uint32_t endian_test = 1]. *)
Definition little_endian0 (host_le : bool) : byte :=
  if host_le then x01 else x00.

(** The [if]/[else if] chain on the endianness token: the value given to
    [input_little_endian], if any. *)
Definition input_little_endian_of (endianness_token : bytes) : option bool :=
  if bytes_eqb endianness_token (str "1.0") then Some false
  else if bytes_eqb endianness_token (str "-1.0") then Some true
  else None.

Definition fails (px : list float) (xs ys : Z) (m : option diag)
    : outcome read_result :=
  Normal {| ret := false; pixels := px; xsize := xs; ysize := ys;
            message := m |}.

(** The part of [ReadPFM] that works on the bytes read from the file. *)
Definition ReadPFM_data (host_le : bool) (data : bytes)
    (px : list float) (xs ys : Z) : outcome read_result :=
  let datastream := {| rest := data; good := true |} in
  let '(pf_token, datastream) := getline datastream NL in
  if negb (bytes_eqb pf_token (str "PF")) then fails px xs ys (Some MissingPF)
  else
  let '(xsize_token, datastream) := getline datastream SP in
  xv ← stoi xsize_token;
  let xs := to_uint32 xv in
  let '(ysize_token, datastream) := getline datastream NL in
  yv ← stoi ysize_token;
  let ys := to_uint32 yv in
  let '(endianness_token, datastream) := getline datastream NL in
  match input_little_endian_of endianness_token with
  | None => fails px xs ys (Some BadEndiannessToken)
  | Some input_little_endian =>
      let offset :=
        size_add (size_add (size_add (size_add (size_add (size_add (size_add
          (len pf_token) 1) (len xsize_token)) 1) (len ysize_token)) 1)
          (len endianness_token)) 1 in
      let expected := u32_mul (u32_mul (u32_mul ys xs) 3) 4 in
      if negb (len data =? size_add expected offset) then
        fails px xs ys
          (Some (SizeMismatch (to_int (len data)) (to_int ys) (to_int xs)
                   (to_int offset) (to_int (size_add expected offset))))
      else if negb (Bool.eqb (negb (Byte.eqb (little_endian0 host_le) x00))
                             input_little_endian) then
        fails px xs ys (Some DifferentEndianness)
      else
        let px := vector_resize float_zero (u32_mul (u32_mul ys xs) 3) px in
        '(px, _) ← copy_pixels data xs ys px offset;
        Normal {| ret := true; pixels := px; xsize := xs; ysize := ys;
                  message := None |}
  end.

Definition ReadPFM (host_le : bool) (f : file)
    (px : list float) (xs ys : Z) : outcome read_result :=
  if negb (fopen_ok f) then fails px xs ys (Some CouldNotOpen)
  else if negb (fseek_end_ok f) then fails px xs ys None
  else
  let size := ftell_size f in
  if (LONG_MAX <=? size) || (size <? 0) then fails px xs ys None
  else if negb (fseek_set_ok f) then fails px xs ys None
  else
  let data := take (Z.to_nat size) (contents f) in
  let readsize := len data in
  if negb (readsize =? size) then fails px xs ys None
  else if negb (fclose_ok f) then fails px xs ys None
  else ReadPFM_data host_le data px xs ys.

(** A file on which every C library call succeeds and that holds [data]. *)
Definition regular_file (data : bytes) : file :=
  {| fopen_ok := true; fseek_end_ok := true; ftell_size := len data;
     fseek_set_ok := true; contents := data; fclose_ok := true |}.

(** The header as [ReadPFM] tokenises it: the four [getline] results. *)
Definition tokens (data : bytes) : bytes * bytes * bytes * bytes :=
  let s0 := {| rest := data; good := true |} in
  let '(pf_token, s1) := getline s0 NL in
  let '(xsize_token, s2) := getline s1 SP in
  let '(ysize_token, s3) := getline s2 NL in
  let '(endianness_token, _) := getline s3 NL in
  (pf_token, xsize_token, ysize_token, endianness_token).

(** The byte offset at which [ReadPFM] places the pixel payload. *)
Definition header_size (data : bytes) : Z :=
  let '(pf_token, xsize_token, ysize_token, endianness_token) := tokens data in
  len pf_token + 1 + len xsize_token + 1 + len ysize_token + 1 +
  len endianness_token + 1.

(** The bytes after the header. *)
Definition payload (data : bytes) : bytes :=
  drop (Z.to_nat (header_size data)) data.

(** The header fields when the signature, both dimensions and the
    endianness token are accepted: the integers [std::stoi] returns for
    the two dimension tokens and the declared byte order. *)
Record header : Type := {
  declared_x : Z;
  declared_y : Z;
  little : bool
}.

(** The declared dimensions as [ReadPFM] stores them in [*xsize] and
    [*ysize]: the [int] converted to [uint32_t]. *)
Definition width (h : header) : Z := to_uint32 (declared_x h).
Definition height (h : header) : Z := to_uint32 (declared_y h).

Definition header_of (data : bytes) : option header :=
  let '(pf_token, xsize_token, ysize_token, endianness_token) := tokens data in
  if bytes_eqb pf_token (str "PF") then
    match stoi xsize_token, stoi ysize_token,
          input_little_endian_of endianness_token with
    | Normal xv, Normal yv, Some le =>
        Some {| declared_x := xv; declared_y := yv; little := le |}
    | _, _, _ => None
    end
  else None.

(** The [k]-th float of a payload, in file order: bytes [4k .. 4k+3]. *)
Definition payload_float (p : bytes) (k : Z) : option float :=
  memcpy_float p (4 * k).

(** [f] is opened, sized, read and closed without error and holds [data]. *)
Definition read_ok (f : file) (data : bytes) : Prop :=
  fopen_ok f = true /\ fseek_end_ok f = true /\ fseek_set_ok f = true /\
  fclose_ok f = true /\ 0 <= ftell_size f < LONG_MAX /\
  len data = ftell_size f /\ take (Z.to_nat (ftell_size f)) (contents f) = data.

(** ** The encoder collaborator *)

(** Modelled from the spec: the header [jxl/encode.h] is not part of the
    sources; the statuses are the three results the interface section
    lists for the encoder calls (Done, NeedMoreSpace, Error), under the
    names the code compares against. *)
Inductive JxlEncoderStatus : Type :=
| JXL_ENC_SUCCESS
| JXL_ENC_ERROR
| JXL_ENC_NEED_MORE_OUTPUT.

Definition status_eqb (a b : JxlEncoderStatus) : bool :=
  match a, b with
  | JXL_ENC_SUCCESS, JXL_ENC_SUCCESS => true
  | JXL_ENC_ERROR, JXL_ENC_ERROR => true
  | JXL_ENC_NEED_MORE_OUTPUT, JXL_ENC_NEED_MORE_OUTPUT => true
  | _, _ => false
  end.

(** [JxlPixelFormat]: channels, sample type, endianness, alignment. *)
Inductive JxlDataType : Type := JXL_TYPE_FLOAT.
Inductive JxlEndianness : Type := JXL_NATIVE_ENDIAN.
Record JxlPixelFormat : Type := {
  num_channels : Z;
  data_type : JxlDataType;
  endianness : JxlEndianness;
  align : Z
}.

(** Modelled from the spec: the encoder library is an outside
    collaborator, known here by its interface only. An encoder state [E]
    answers each call with a status and its next state;
    [JxlEncoderProcessOutput], offered [avail_out] bytes, also yields the
    bytes it writes at [*next_out], by whose count it advances
    [*next_out] and lowers [*avail_out]. *)
Class Encoder (E : Type) : Type := {
  JxlEncoderCreate : E;
  JxlEncoderSetParallelRunner : E -> JxlEncoderStatus * E;
  JxlEncoderSetDimensions : E -> Z -> Z -> JxlEncoderStatus * E;
  JxlEncoderAddImageFrame :
    E -> JxlPixelFormat -> list float -> Z -> JxlEncoderStatus * E;
  JxlEncoderProcessOutput : E -> Z -> JxlEncoderStatus * bytes * E
}.

(** Life-cycle calls on the two handles, in the order they are made. *)
Inductive call : Type :=
| EncoderCreate
| RunnerCreate
| RunnerDestroy
| EncoderDestroy.

Inductive encode_diag : Type :=
| SetParallelRunnerFailed
| SetDimensionsFailed
| AddImageFrameFailed
| ProcessOutputFailed.

Record encode_result : Type := {
  ok : bool;
  compressed : bytes;
  calls : list call;
  complaint : option encode_diag
}.

(** [max_size()] of a [std::vector<uint8_t>]: PTRDIFF_MAX. *)
Definition max_size : Z := 9223372036854775807.

(** [compressed->resize(n)]: [std::length_error] beyond [max_size()].
    Memory is taken to suffice for every size up to there: no
    [std::bad_alloc]. *)
Definition resize_bytes (n : Z) (v : bytes) : outcome bytes :=
  if max_size <? n then Throws length_error
  else Normal (vector_resize x00 n v).

(** The bytes of [chunk] stored from position [off] of [buf] on. *)
Definition write_at (buf : bytes) (off : Z) (chunk : bytes) : bytes :=
  take (Z.to_nat off) buf ++ chunk ++
  drop (Z.to_nat off + length chunk) buf.

Section Drain.

Context {E : Type} `{Encoder E}.

(** The variables of the output loop; [next_out] is kept as its distance
    from [compressed->data()]. *)
Record drain_state : Type := {
  enc : E;
  buffer : bytes;
  next_out : Z;
  avail_out : Z;
  process_result : JxlEncoderStatus
}.

(** [process_result = JxlEncoderProcessOutput(enc, &next_out, &avail_out)];
    an encoder that writes past the space it was offered overruns the
    buffer. *)
Definition process_output (s : drain_state) : outcome drain_state :=
  let '(st, chunk, e) := JxlEncoderProcessOutput (enc s) (avail_out s) in
  if avail_out s <? len chunk then Undefined
  else Normal {| enc := e;
                 buffer := write_at (buffer s) (next_out s) chunk;
                 next_out := next_out s + len chunk;
                 avail_out := avail_out s - len chunk;
                 process_result := st |}.

(** The body of [if (process_result == JXL_ENC_NEED_MORE_OUTPUT)]. *)
Definition grow (s : drain_state) : outcome drain_state :=
  let offset := next_out s in
  buf ← resize_bytes (size_mul (len (buffer s)) 2) (buffer s);
  Normal {| enc := enc s;
            buffer := buf;
            next_out := offset;
            avail_out := size_sub (len buf) offset;
            process_result := process_result s |}.

(** One iteration of the [while] loop. *)
Definition loop_body (s : drain_state) : outcome drain_state :=
  s1 ← process_output s;
  if status_eqb (process_result s1) JXL_ENC_NEED_MORE_OUTPUT then grow s1
  else Normal s1.

(** The [while] loop; [None] when [fuel] iterations did not end it. *)
Fixpoint drain_loop (fuel : nat) (s : drain_state)
    : option (outcome drain_state) :=
  if status_eqb (process_result s) JXL_ENC_NEED_MORE_OUTPUT then
    match fuel with
    | O => None
    | S fuel' =>
        match loop_body s with
        | Normal s' => drain_loop fuel' s'
        | Throws e => Some (Throws e)
        | Undefined => Some Undefined
        end
    end
  else Some (Normal s).

(** The state in which the loop is entered, for a starting capacity
    [start] (64 in the source). *)
Definition drain_init (start : Z) (e : E) (out : bytes) : outcome drain_state :=
  buf ← resize_bytes start out;
  Normal {| enc := e;
            buffer := buf;
            next_out := 0;
            avail_out := size_sub (len buf) 0;
            process_result := JXL_ENC_NEED_MORE_OUTPUT |}.

(** From [compressed->resize(start)] to the final
    [compressed->resize(next_out - compressed->data())]: the last status
    and the buffer as the caller sees it. *)
Definition drain (start : Z) (fuel : nat) (e : E) (out : bytes)
    : option (outcome (JxlEncoderStatus * bytes * E)) :=
  match drain_init start e out with
  | Normal s0 =>
      match drain_loop fuel s0 with
      | Some (Normal s) =>
          Some (Normal (process_result s,
                        vector_resize x00 (next_out s) (buffer s), enc s))
      | Some (Throws e) => Some (Throws e)
      | Some Undefined => Some Undefined
      | None => None
      end
  | Throws e => Some (Throws e)
  | Undefined => Some Undefined
  end.

Definition pixel_format : JxlPixelFormat :=
  {| num_channels := 3; data_type := JXL_TYPE_FLOAT;
     endianness := JXL_NATIVE_ENDIAN; align := 0 |}.

Definition encode_fails (out : bytes) (d : encode_diag)
    : option (outcome encode_result) :=
  Some (Normal {| ok := false; compressed := out;
                  calls := [EncoderCreate; RunnerCreate;
                            RunnerDestroy; EncoderDestroy];
                  complaint := Some d |}).

(** [EncodeJxlOneshot] with the starting capacity as a parameter. *)
Definition EncodeJxlOneshot_from (start : Z) (fuel : nat)
    (px : list float) (xs ys : Z) (out : bytes)
    : option (outcome encode_result) :=
  let e := JxlEncoderCreate in
  let '(st, e) := JxlEncoderSetParallelRunner e in
  if negb (status_eqb JXL_ENC_SUCCESS st) then
    encode_fails out SetParallelRunnerFailed
  else
  let '(st, e) := JxlEncoderSetDimensions e xs ys in
  if negb (status_eqb JXL_ENC_SUCCESS st) then
    encode_fails out SetDimensionsFailed
  else
  let '(st, e) :=
    JxlEncoderAddImageFrame e pixel_format px (size_mul 4 (len px)) in
  if negb (status_eqb JXL_ENC_SUCCESS st) then
    encode_fails out AddImageFrameFailed
  else
  match drain start fuel e out with
  | Some (Normal (st, out, e)) =>
      if negb (status_eqb JXL_ENC_SUCCESS st) then
        encode_fails out ProcessOutputFailed
      else
        Some (Normal {| ok := true; compressed := out;
                        calls := [EncoderCreate; RunnerCreate; EncoderDestroy];
                        complaint := None |})
  | Some (Throws e) => Some (Throws e)
  | Some Undefined => Some Undefined
  | None => None
  end.

Definition EncodeJxlOneshot := EncodeJxlOneshot_from 64.

End Drain.

Arguments drain_state : clear implicits.

(** What [ReadPFM] does once the header is accepted. *)
Definition after_header (host : bool) (data : bytes) (h : header)
    (px : list float) : outcome read_result :=
  let xs := width h in
  let ys := height h in
  let offset := header_size data in
  let expected := to_uint32 (ys * xs * 3 * 4) in
  if negb (len data =? expected + offset) then
    fails px xs ys
      (Some (SizeMismatch (to_int (len data)) (to_int ys) (to_int xs)
               (to_int offset) (to_int (expected + offset))))
  else if negb (Bool.eqb host (little h)) then
    fails px xs ys (Some DifferentEndianness)
  else
    '(px, _) ← copy_pixels data xs ys
                 (vector_resize float_zero (to_uint32 (ys * xs * 3)) px) offset;
    Normal {| ret := true; pixels := px; xsize := xs; ysize := ys;
              message := None |}.


(** ** The progress of the pixel copy *)

(** Samples copied before the one at row [y], column [x], channel [c] of
    an image of width [w] and height [h]. *)
Definition copied_before (w h y x c : Z) : Z := ((h - 1 - y) * w + x) * 3 + c.

(** Where the sample at row [y], column [x], channel [c] is stored. *)
Definition target (w y x c : Z) : Z := (y * w + x) * 3 + c.

(** After [k] samples: the cursor has advanced by [4k] bytes from [off0],
    and the samples copied so far sit at their targets. *)
Definition copied (data : bytes) (w h off0 k : Z) (st : list float * Z)
    : Prop :=
  snd st = off0 + 4 * k /\ len (fst st) = h * w * 3 /\
  forall y x c, 0 <= y < h -> 0 <= x < w -> 0 <= c < 3 ->
    copied_before w h y x c < k ->
    fst st !! Z.to_nat (target w y x c) =
      memcpy_float data (off0 + 4 * copied_before w h y x c).

(** ** Sample files *)

(** A file with the given dimension line, endianness line and payload. *)
Definition pfm (dims endian : string) (p : bytes) : bytes :=
  str "PF" ++ [NL] ++ str dims ++ [NL] ++ str endian ++ [NL] ++ p.

(** Two pixels in one row, all samples [0.0f]. *)
Definition pfm_2x1 : bytes := pfm "2 1" "-1.0" (replicate 24 x00).

(** One column, two rows; the samples are numbered in file order. *)
Definition pfm_1x2 : bytes :=
  pfm "1 2" "-1.0"
    [x01; x00; x00; x00; x02; x00; x00; x00; x03; x00; x00; x00;
     x04; x00; x00; x00; x05; x00; x00; x00; x06; x00; x00; x00].

(** The payload of [pfm_2x1] cut by one byte. *)
Definition pfm_2x1_short : bytes := pfm "2 1" "-1.0" (replicate 23 x00).

(** Empty images. *)
Definition pfm_0x7 : bytes := pfm "0 7" "-1.0" [].
Definition pfm_0x0_big_endian : bytes := pfm "0 0" "1.0" [].

(** A height token that [std::stoi] reads as a negative [int]: stored in
    the [uint32_t] it is 2^31 + 1. *)
Definition pfm_wrapped : bytes := pfm "4 -2147483647" "-1.0" (replicate 48 x07).

(** Dimensions whose byte count 65536 * 65536 * 12 is a multiple of 2^32. *)
Definition pfm_65536 : bytes := pfm "65536 65536" "-1.0" [].

(** Dimension lines that [std::stoi] cannot convert. *)
Definition pfm_no_dims : bytes := str "PF" ++ [NL].
Definition pfm_bad_width : bytes := pfm "abc 1" "-1.0" [].
Definition pfm_bad_height : bytes := pfm "1 ?" "-1.0" [x00; x00; x00; x00].
Definition pfm_huge_width : bytes := pfm "4294967296 1" "-1.0" [].

(** ** Writing a container back *)

Definition digit_byte (d : Z) : byte :=
  match d with
  | 0 => x30 | 1 => x31 | 2 => x32 | 3 => x33 | 4 => x34
  | 5 => x35 | 6 => x36 | 7 => x37 | 8 => x38 | _ => x39
  end.

Fixpoint decimal_digits (fuel : nat) (n : Z) (acc : bytes) : bytes :=
  match fuel with
  | O => acc
  | S fuel' =>
      let acc' := digit_byte (n mod 10) :: acc in
      if n <? 10 then acc' else decimal_digits fuel' (n / 10) acc'
  end.

(** The decimal numeral of a [uint32_t] (at most ten digits). *)
Definition decimal (n : Z) : bytes := decimal_digits 10 n [].

Definition float_bytes (v : float) : bytes :=
  let '(b0, b1, b2, b3) := v in [b0; b1; b2; b3].

(** Row [y] of an image of width [w]: [3w] consecutive samples. *)
Definition row (w : Z) (samples : list float) (y : nat) : list float :=
  take (Z.to_nat (3 * w)) (drop (y * Z.to_nat (3 * w)) samples).

(** The rows from the last to the first. *)
Definition rows_reversed (w h : Z) (samples : list float) : list float :=
  mjoin (row w samples <$> reverse (seq 0 (Z.to_nat h))).

(** The endianness line that the host's byte order calls for. *)
Definition endianness_line (host_le : bool) : bytes :=
  if host_le then str "-1.0" else str "1.0".

(** Modelled from the spec: the sources hold no writer for the input
    format. This one follows the round-trip property's words and the
    format's description: the signature line, the line "<width> <height>",
    the endianness line of the host ("-1.0" for little-endian), then the
    samples with the row order reversed back, four bytes each. *)
Definition serialize_pfm (host_le : bool) (w h : Z) (samples : list float)
    : bytes :=
  str "PF" ++ [NL] ++ decimal w ++ [SP] ++ decimal h ++ [NL] ++
  endianness_line host_le ++ [NL] ++
  mjoin (float_bytes <$> rows_reversed w h samples).


(** A valid container of 20000 by 20000 pixels, all samples [0.0f], in
    little-endian order: 4800000000 bytes of payload. *)
Definition pfm_20000 : bytes :=
  serialize_pfm true 20000 20000
    (replicate (Z.to_nat 1200000000) float_zero).

(** ** Runs of the output loop *)

Section DrainRuns.

Context {E : Type} `{Encoder E}.

(** [loop_run s chunks s']: from [s] the loop iterates once per element
    of [chunks], the bytes the encoder writes at that iteration, and is at
    its test again in [s']. *)
Inductive loop_run : drain_state E -> list bytes -> drain_state E -> Prop :=
| run_here s : loop_run s [] s
| run_more s st chunk e s' chunks s'' :
    process_result s = JXL_ENC_NEED_MORE_OUTPUT ->
    JxlEncoderProcessOutput (enc s) (avail_out s) = (st, chunk, e) ->
    loop_body s = Normal s' ->
    loop_run s' chunks s'' ->
    loop_run s (chunk :: chunks) s''.

(** The cursor lies inside the buffer, the space offered is what is left
    behind it, and the buffer is no larger than a vector can be. *)
Definition cursor_ok (s : drain_state E) : Prop :=
  0 <= next_out s <= len (buffer s) /\
  avail_out s = len (buffer s) - next_out s /\
  len (buffer s) <= max_size.

(** The bytes written so far: the prefix [[0, next_out)]. *)
Definition written (s : drain_state E) : bytes :=
  take (Z.to_nat (next_out s)) (buffer s).

End DrainRuns.

(** ** Scripted encoders *)

(** A stub encoder: fixed answers to the three set-up calls, and a script
    of (status, bytes written) pairs played by the successive
    [JxlEncoderProcessOutput] calls. *)
Record stub : Type := {
  runner_answer : JxlEncoderStatus;
  dimensions_answer : JxlEncoderStatus;
  frame_answer : JxlEncoderStatus;
  script : list (JxlEncoderStatus * bytes)
}.

Definition stub_encoder (init : stub) : Encoder stub :=
  {| JxlEncoderCreate := init;
     JxlEncoderSetParallelRunner e := (runner_answer e, e);
     JxlEncoderSetDimensions e _ _ := (dimensions_answer e, e);
     JxlEncoderAddImageFrame e _ _ _ := (frame_answer e, e);
     JxlEncoderProcessOutput e _ :=
       match script e with
       | (st, chunk) :: more =>
           (st, chunk,
            {| runner_answer := runner_answer e;
               dimensions_answer := dimensions_answer e;
               frame_answer := frame_answer e;
               script := more |})
       | [] => (JXL_ENC_ERROR, [], e)
       end |}.

Definition plays (sc : list (JxlEncoderStatus * bytes)) : stub :=
  {| runner_answer := JXL_ENC_SUCCESS; dimensions_answer := JXL_ENC_SUCCESS;
     frame_answer := JXL_ENC_SUCCESS; script := sc |}.

(** Three requests for more space, then done. *)
Definition three_then_done : stub :=
  plays [(JXL_ENC_NEED_MORE_OUTPUT, [x01; x02; x03]);
         (JXL_ENC_NEED_MORE_OUTPUT, [x04]);
         (JXL_ENC_NEED_MORE_OUTPUT, [x05; x06]);
         (JXL_ENC_SUCCESS, [x07; x08])].

(** Some output, then an error. *)
Definition output_then_error : stub :=
  plays [(JXL_ENC_NEED_MORE_OUTPUT, [x01; x02]); (JXL_ENC_ERROR, [])].

(** Done at the first call. *)
Definition done_at_once : stub := plays [(JXL_ENC_SUCCESS, [x2a])].

(** One sample triple, as [ReadPFM] returns it for a 1 x 1 image. *)
Definition one_pixel : list float :=
  [(x00, x00, x80, x3f); (x00, x00, x00, x40); (x00, x00, x40, x40)].

(** A failing run with output: two chunks, then an error. *)
Definition two_chunks_then_error : stub :=
  plays [(JXL_ENC_NEED_MORE_OUTPUT, [x0a; x0b; x0c]);
         (JXL_ENC_NEED_MORE_OUTPUT, [x0d]);
         (JXL_ENC_ERROR, [x0e])].

(** The first iteration of the loop against [three_then_done], from a
    starting capacity of 4: at the loop test, after the encoder call, and
    at the next loop test. *)
Definition at_start : drain_state stub :=
  {| enc := three_then_done; buffer := [x00; x00; x00; x00];
     next_out := 0; avail_out := 4;
     process_result := JXL_ENC_NEED_MORE_OUTPUT |}.

Definition after_call : drain_state stub :=
  {| enc := plays [(JXL_ENC_NEED_MORE_OUTPUT, [x04]);
                   (JXL_ENC_NEED_MORE_OUTPUT, [x05; x06]);
                   (JXL_ENC_SUCCESS, [x07; x08])];
     buffer := [x01; x02; x03; x00];
     next_out := 3; avail_out := 1;
     process_result := JXL_ENC_NEED_MORE_OUTPUT |}.

Definition after_growth : drain_state stub :=
  {| enc := plays [(JXL_ENC_NEED_MORE_OUTPUT, [x04]);
                   (JXL_ENC_NEED_MORE_OUTPUT, [x05; x06]);
                   (JXL_ENC_SUCCESS, [x07; x08])];
     buffer := [x01; x02; x03; x00; x00; x00; x00; x00];
     next_out := 3; avail_out := 5;
     process_result := JXL_ENC_NEED_MORE_OUTPUT |}.

(** What [ReadPFM] returns for [pfm_1x2]: the second row of the file
    comes first. *)
Definition image_1x2 : read_result :=
  {| ret := true;
     pixels := [(x04, x00, x00, x00); (x05, x00, x00, x00);
                (x06, x00, x00, x00); (x01, x00, x00, x00);
                (x02, x00, x00, x00); (x03, x00, x00, x00)];
     xsize := 1; ysize := 2; message := None |}.

(** ** The C library calls of ReadPFM *)

Inductive stdio_call : Type :=
| Fopen
| Fseek_end
| Ftell
| Fseek_set
| Fread
| Fwrite
| Fclose.

(** The first part of [ReadPFM], up to the [fclose] test: the C library
    calls made on the stream, in order, and the bytes read when every one
    of them succeeds. *)
Definition ReadPFM_io (f : file) : list stdio_call * option bytes :=
  if negb (fopen_ok f) then ([Fopen], None)
  else if negb (fseek_end_ok f) then ([Fopen; Fseek_end; Fclose], None)
  else
  let size := ftell_size f in
  if (LONG_MAX <=? size) || (size <? 0) then
    ([Fopen; Fseek_end; Ftell; Fclose], None)
  else if negb (fseek_set_ok f) then
    ([Fopen; Fseek_end; Ftell; Fseek_set; Fclose], None)
  else
  let data := take (Z.to_nat size) (contents f) in
  let readsize := len data in
  if negb (readsize =? size) then
    ([Fopen; Fseek_end; Ftell; Fseek_set; Fread], None)
  else if negb (fclose_ok f) then
    ([Fopen; Fseek_end; Ftell; Fseek_set; Fread; Fclose], None)
  else ([Fopen; Fseek_end; Ftell; Fseek_set; Fread; Fclose], Some data).

(** [fread] delivers fewer bytes than [ftell] announced. *)
Definition short_read (f : file) : bool :=
  fseek_end_ok f && negb ((LONG_MAX <=? ftell_size f) || (ftell_size f <? 0))
  && fseek_set_ok f
  && negb (len (take (Z.to_nat (ftell_size f)) (contents f)) =? ftell_size f).

(** ** WriteFile *)

(** What the C library reports for the file to write: whether it can be
    opened for writing, how many bytes [fwrite] takes, whether closing
    works, and how many of the bytes taken have left the stream's buffer
    for the file when the stream is not closed successfully (the others
    are still in the buffer when [WriteFile] returns). *)
Record out_file : Type := {
  wopen_ok : bool;
  fwrite_room : Z;
  wclose_ok : bool;
  flushed_early : Z
}.

Inductive write_diag : Type :=
| CouldNotOpenForWriting
| CouldNotWrite
| CouldNotClose.

(** The return value, the bytes the file holds when [WriteFile] returns
    ([None] when it was never opened, so that what it held before is
    still there; opening with "wb" empties it), the calls made and the
    message printed. *)
Record write_result : Type := {
  wret : bool;
  stored : option bytes;
  wcalls : list stdio_call;
  wmessage : option write_diag
}.

(** The count [fwrite] returns: all of the bytes, or as many as fit. *)
Definition fwrite_count (f : out_file) (b : bytes) : Z :=
  Z.min (len b) (Z.max 0 (fwrite_room f)).

Definition WriteFile (b : bytes) (f : out_file) : write_result :=
  if negb (wopen_ok f) then
    {| wret := false; stored := None; wcalls := [Fopen];
       wmessage := Some CouldNotOpenForWriting |}
  else
  let count := fwrite_count f b in
  let in_file := Z.min count (Z.max 0 (flushed_early f)) in
  if negb (count =? len b) then
    {| wret := false; stored := Some (take (Z.to_nat in_file) b);
       wcalls := [Fopen; Fwrite]; wmessage := Some CouldNotWrite |}
  else if negb (wclose_ok f) then
    {| wret := false; stored := Some (take (Z.to_nat in_file) b);
       wcalls := [Fopen; Fwrite; Fclose]; wmessage := Some CouldNotClose |}
  else
    {| wret := true; stored := Some (take (Z.to_nat count) b);
       wcalls := [Fopen; Fwrite; Fclose]; wmessage := None |}.

(** ** main *)

(** The exit status and what became of the output file. *)
Record main_result : Type := {
  exit_code : Z;
  output : option bytes
}.

Section Main.

Context {E : Type} `{Encoder E}.

(** [main] with [argc] arguments, [argv[1]] naming [input] and [argv[2]]
    naming [out]; [xs0] and [ys0] are the indeterminate initial values of
    the locals [xsize] and [ysize]. An exception that leaves [ReadPFM] or
    [EncodeJxlOneshot] leaves [main] too. *)
Definition main (host_le : bool) (argc : Z) (input : file) (out : out_file)
    (xs0 ys0 : Z) (fuel : nat) : option (outcome main_result) :=
  if negb (argc =? 3) then
    Some (Normal {| exit_code := 1; output := None |})
  else
  match ReadPFM host_le input [] xs0 ys0 with
  | Throws e => Some (Throws e)
  | Undefined => Some Undefined
  | Normal img =>
      if negb (ret img) then
        Some (Normal {| exit_code := 2; output := None |})
      else
      match EncodeJxlOneshot fuel (pixels img) (xsize img) (ysize img) [] with
      | None => None
      | Some (Throws e) => Some (Throws e)
      | Some Undefined => Some Undefined
      | Some (Normal enc_out) =>
          if negb (ok enc_out) then
            Some (Normal {| exit_code := 3; output := None |})
          else
          let w := WriteFile (compressed enc_out) out in
          if negb (wret w) then
            Some (Normal {| exit_code := 4; output := stored w |})
          else
            Some (Normal {| exit_code := 0; output := stored w |})
      end
  end.

End Main.

(** ** More sample inputs *)

(** A file that [ftell] sizes at ten bytes and that yields three. *)
Definition cut_short : file :=
  {| fopen_ok := true; fseek_end_ok := true; ftell_size := 10;
     fseek_set_ok := true; contents := [x50; x46; x0a]; fclose_ok := true |}.

(** A file of another kind. *)
Definition not_a_pfm : bytes := str "P6" ++ [NL] ++ str "2 1" ++ [NL].

(** A 2 x 1 file of the other byte order, one byte short. *)
Definition pfm_2x1_short_big_endian : bytes :=
  pfm "2 1" "1.0" (replicate 23 x00).

(** An output file with room for everything. *)
Definition roomy : out_file :=
  {| wopen_ok := true; fwrite_room := 1000; wclose_ok := true;
     flushed_early := 0 |}.

(** An output file that takes three bytes, none of which has left the
    stream's buffer when [WriteFile] returns. *)
Definition nearly_full : out_file :=
  {| wopen_ok := true; fwrite_room := 3; wclose_ok := true;
     flushed_early := 0 |}.

(** An encoder that asks for more space twice without writing, then
    reports an error. *)
Definition asks_twice : stub :=
  plays [(JXL_ENC_NEED_MORE_OUTPUT, []); (JXL_ENC_NEED_MORE_OUTPUT, [x11])].

(** An encoder whose frame submission fails. *)
Definition refuses_frame : stub :=
  {| runner_answer := JXL_ENC_SUCCESS; dimensions_answer := JXL_ENC_SUCCESS;
     frame_answer := JXL_ENC_ERROR; script := [] |}.
(** * Properties *)

(** ** Machine arithmetic *)

Lemma to_uint32_small z : 0 <= z < two32 -> to_uint32 z = z.
Proof. intros Hz. unfold to_uint32. apply Z.mod_small, Hz. Qed.

Lemma to_uint32_range z : 0 <= to_uint32 z < two32.
Proof. unfold to_uint32, two32. apply Z.mod_pos_bound. lia. Qed.

Lemma to_size_t_small z : 0 <= z < two64 -> to_size_t z = z.
Proof. intros Hz. unfold to_size_t. apply Z.mod_small, Hz. Qed.

Lemma to_int_small z : 0 <= z <= INT_MAX -> to_int z = z.
Proof.
  unfold to_int, INT_MAX, two32. intros Hz.
  rewrite Z.mod_small by lia.
  destruct (Z.ltb_spec z 2147483648); lia.
Qed.

Lemma to_int_big z : INT_MAX < z < two32 -> to_int z = z - two32.
Proof.
  unfold to_int, INT_MAX, two32. intros Hz.
  rewrite Z.mod_small by lia.
  destruct (Z.ltb_spec z 2147483648); lia.
Qed.

(** The chained [uint32_t] products of the size check and of the resize
    are the mathematical products reduced once. *)
Lemma u32_mul3 a b c : u32_mul (u32_mul a b) c = to_uint32 (a * b * c).
Proof.
  unfold u32_mul, to_uint32, two32.
  rewrite Z.mul_mod_idemp_l by lia. reflexivity.
Qed.

Lemma u32_mul4 a b c d :
  u32_mul (u32_mul (u32_mul a b) c) d = to_uint32 (a * b * c * d).
Proof.
  rewrite (u32_mul3 a b c). unfold u32_mul, to_uint32, two32.
  rewrite Z.mul_mod_idemp_l by lia. reflexivity.
Qed.

Lemma size_add_chain a b : size_add (to_size_t a) b = to_size_t (a + b).
Proof.
  unfold size_add, to_size_t, two64.
  rewrite Z.add_mod_idemp_l by lia. reflexivity.
Qed.

Lemma len_nonneg {A} (l : list A) : 0 <= len l.
Proof. unfold len. lia. Qed.


Lemma len_cons {A} (a : A) (l : list A) : len (a :: l) = 1 + len l.
Proof. unfold len. simpl. lia. Qed.

Lemma len_nil {A} : len (@nil A) = 0.
Proof. reflexivity. Qed.

Lemma vector_resize_len {A} (z : A) n (v : list A) :
  0 <= n -> len (vector_resize z n v) = n.
Proof.
  intros Hn. unfold vector_resize, len.
  rewrite length_app, length_take, length_replicate. lia.
Qed.

Lemma vector_resize_zero {A} (z : A) (v : list A) : vector_resize z 0 v = [].
Proof. reflexivity. Qed.

(** ** Equality tests *)

Lemma byte_eqb_eq a b : Byte.eqb a b = true <-> a = b.
Proof.
  split.
  - intros Hab. apply Byte.byte_dec_bl. exact Hab.
  - intros ->. apply Byte.byte_dec_lb. reflexivity.
Qed.

Lemma bytes_eqb_eq a b : bytes_eqb a b = true <-> a = b.
Proof.
  revert b. induction a as [|x a IH]; intros [|y b]; simpl; try easy.
  rewrite andb_true_iff, byte_eqb_eq, IH. split.
  - intros [-> ->]. reflexivity.
  - intros [= -> ->]. split; reflexivity.
Qed.

(** ** getline *)

Lemma split_delim_len d l tok r :
  split_delim d l = (tok, r) ->
  len l = len tok + match r with Some r' => 1 + len r' | None => 0 end.
Proof.
  revert tok r. induction l as [|b l IH]; intros tok r; simpl.
  - intros [= <- <-]. reflexivity.
  - destruct (Byte.eqb b d).
    + intros [= <- <-]. rewrite len_cons, len_nil. lia.
    + destruct (split_delim d l) as [t q]. intros [= <- <-].
      specialize (IH t q eq_refl). rewrite !len_cons. lia.
Qed.

(** The tokens and what is left of the stream never exceed the data. *)
Lemma getline_len s d tok s' :
  getline s d = (tok, s') -> len tok + len (rest s') <= len (rest s).
Proof.
  unfold getline. destruct (good s).
  - destruct (split_delim d (rest s)) as [t [r|]] eqn:Hs; intros [= <- <-];
      apply split_delim_len in Hs; simpl; rewrite ?len_nil; pose proof (len_nonneg t); lia.
  - intros [= <- <-]. rewrite len_nil. pose proof (len_nonneg (rest s)). lia.
Qed.

Lemma header_size_bound data : 4 <= header_size data <= len data + 4.
Proof.
  unfold header_size, tokens.
  destruct (getline _ NL) as [pf s1] eqn:H1.
  destruct (getline s1 SP) as [xt s2] eqn:H2.
  destruct (getline s2 NL) as [yt s3] eqn:H3.
  destruct (getline s3 NL) as [et s4] eqn:H4.
  apply getline_len in H1, H2, H3, H4. simpl in H1.
  pose proof (len_nonneg pf). pose proof (len_nonneg xt).
  pose proof (len_nonneg yt). pose proof (len_nonneg et).
  pose proof (len_nonneg (rest s4)). lia.
Qed.

(** ** ReadPFM in terms of the parsed header *)

Lemma ReadPFM_read_ok host f data px xs ys :
  read_ok f data ->
  ReadPFM host f px xs ys = ReadPFM_data host data px xs ys.
Proof.
  intros (Ho & He & Hs & Hc & Hsz & Hlen & Hdata). unfold ReadPFM.
  rewrite Ho, He, Hs, Hc, Hdata, Hlen. simpl.
  destruct (Z.leb_spec LONG_MAX (ftell_size f)); [lia|].
  destruct (Z.ltb_spec (ftell_size f) 0); [lia|]. simpl.
  rewrite Z.eqb_refl. reflexivity.
Qed.

Lemma regular_file_read_ok data :
  len data < LONG_MAX -> read_ok (regular_file data) data.
Proof.
  intros Hl. unfold read_ok, regular_file; simpl.
  pose proof (len_nonneg data).
  repeat split; try lia.
  unfold len. rewrite Nat2Z.id. apply firstn_all.
Qed.

Lemma ReadPFM_data_header host data h px xs ys :
  len data < LONG_MAX ->
  header_of data = Some h ->
  ReadPFM_data host data px xs ys = after_header host data h px.
Proof.
  intros Hlen Hh. pose proof (header_size_bound data) as Hb.
  revert Hh Hb. unfold header_of, ReadPFM_data, after_header, header_size, tokens.
  destruct (getline _ NL) as [pf s1].
  destruct (getline s1 SP) as [xt s2].
  destruct (getline s2 NL) as [yt s3].
  destruct (getline s3 NL) as [et s4].
  destruct (bytes_eqb pf (str "PF")); [|discriminate]. simpl negb. cbv iota.
  destruct (stoi xt) as [xv| |]; try discriminate.
  destruct (stoi yt) as [yv| |]; try discriminate.
  destruct (input_little_endian_of et) as [le|]; [|discriminate].
  intros [= <-] Hb. unfold width, height. simpl.
  rewrite u32_mul4, u32_mul3.
  set (o := len pf + 1 + len xt + 1 + len yt + 1 + len et + 1) in *.
  assert (Ho : size_add (size_add (size_add (size_add (size_add (size_add
            (size_add (len pf) 1) (len xt)) 1) (len yt)) 1) (len et)) 1 = o).
  { unfold size_add at 7. rewrite !size_add_chain.
    apply to_size_t_small. unfold two64, LONG_MAX in *. lia. }
  rewrite Ho.
  assert (He : size_add (to_uint32 (to_uint32 yv * to_uint32 xv * 3 * 4)) o
               = to_uint32 (to_uint32 yv * to_uint32 xv * 3 * 4) + o).
  { unfold size_add. apply to_size_t_small.
    pose proof (to_uint32_range (to_uint32 yv * to_uint32 xv * 3 * 4)).
    unfold two64, two32, LONG_MAX in *. lia. }
  rewrite He.
  destruct (len data =? _); simpl; [|reflexivity].
  destruct host, le; reflexivity.
Qed.

Lemma ReadPFM_data_accepts_header host data px xs ys r :
  ReadPFM_data host data px xs ys = Normal r -> ret r = true ->
  exists h, header_of data = Some h.
Proof.
  unfold header_of, ReadPFM_data, tokens.
  destruct (getline _ NL) as [pf s1].
  destruct (getline s1 SP) as [xt s2].
  destruct (getline s2 NL) as [yt s3].
  destruct (getline s3 NL) as [et s4].
  destruct (bytes_eqb pf (str "PF")); simpl negb; cbv iota.
  2:{ intros [= <-]. discriminate. }
  destruct (stoi xt) as [xv| |]; try discriminate.
  destruct (stoi yt) as [yv| |]; try discriminate. simpl.
  destruct (input_little_endian_of et) as [le|].
  - intros _ _. eexists. reflexivity.
  - intros [= <-]. discriminate.
Qed.

(** ** Counted loops *)

(** Invariant rule: a body that keeps [Inv] and returns normally at each
    of the [n] counter values makes the loop return normally with [Inv]
    at the final counter. *)
Lemma for_count_inv {St : Type} (Inv : Z -> St -> Prop) (body : Z -> St -> outcome St)
    (step : Z) (n : nat) : forall (i : Z) (s : St),
  Inv i s ->
  (forall k j s1, 0 <= k < Z.of_nat n -> j = i + k * step -> Inv j s1 ->
     exists s2, body j s1 = Normal s2 /\ Inv (j + step) s2) ->
  exists s', for_count n i step body s = Normal s' /\
             Inv (i + Z.of_nat n * step) s'.
Proof.
  induction n as [|n IH]; intros i s Hi Hbody.
  - exists s. split; [reflexivity|]. replace (i + Z.of_nat 0 * step) with i by lia.
    exact Hi.
  - destruct (Hbody 0 i s) as (s2 & Hs2 & Hinv); [lia|lia|exact Hi|].
    destruct (IH (i + step) s2 Hinv) as (s' & Hs' & Hinv').
    { intros k j s1 Hk -> Hj. apply (Hbody (k + 1)); [lia|lia|exact Hj]. }
    exists s'. split.
    + simpl. rewrite Hs2. exact Hs'.
    + replace (i + Z.of_nat (S n) * step) with (i + step + Z.of_nat n * step) by lia.
      exact Hinv'.
Qed.

(** A loop whose body changes nothing changes nothing. *)
Lemma for_count_skip {St : Type} (body : Z -> St -> outcome St) step n :
  (forall j s, body j s = Normal s) ->
  forall i s, for_count n i step body s = Normal s.
Proof.
  intros Hb. induction n as [|n IH]; intros i s; simpl; [reflexivity|].
  rewrite Hb. simpl. apply IH.
Qed.

(** ** The pixel copy *)

Lemma lex_index_inj w a x c a' x' c' :
  0 <= x < w -> 0 <= x' < w -> 0 <= c < 3 -> 0 <= c' < 3 ->
  (a * w + x) * 3 + c = (a' * w + x') * 3 + c' ->
  a = a' /\ x = x' /\ c = c'.
Proof.
  intros Hx Hx' Hc Hc' He.
  assert (c = c') as -> by lia.
  assert (Hr : a * w + x = a' * w + x') by lia.
  assert (a = a') as ->.
  { destruct (Z.lt_trichotomy a a') as [Hlt|[Heq|Hgt]]; [|exact Heq|].
    - assert ((a + 1) * w <= a' * w) by (apply Z.mul_le_mono_nonneg_r; lia). lia.
    - assert ((a' + 1) * w <= a * w) by (apply Z.mul_le_mono_nonneg_r; lia). lia. }
  repeat split. lia.
Qed.

Lemma memcpy_float_in_bounds data off :
  0 <= off -> off + 4 <= len data -> is_Some (memcpy_float data off).
Proof.
  intros H0 H4. unfold memcpy_float.
  assert (Hl : (4 <= length (drop (Z.to_nat off) data))%nat).
  { rewrite length_drop. unfold len in H4. lia. }
  destruct (drop (Z.to_nat off) data) as [|b0 [|b1 [|b2 [|b3 l]]]];
    simpl in Hl; try lia. eexists. reflexivity.
Qed.

Lemma memcpy_float_drop data off k :
  0 <= off -> 0 <= k ->
  memcpy_float (drop (Z.to_nat off) data) k = memcpy_float data (off + k).
Proof.
  intros H0 Hk. unfold memcpy_float. rewrite drop_drop.
  replace (Z.to_nat off + Z.to_nat k)%nat with (Z.to_nat (off + k)) by lia.
  reflexivity.
Qed.

Section CopyPixels.

Variables (data : bytes) (w h off0 : Z).
Hypothesis w_range : 0 <= w <= INT_MAX.
Hypothesis h_range : 0 <= h <= INT_MAX.
Hypothesis samples_fit : h * w * 3 < two32.
Hypothesis off0_nonneg : 0 <= off0.
Hypothesis payload_fits : off0 + 4 * (h * w * 3) <= len data.
Hypothesis data_small : len data < LONG_MAX.

Lemma copied_before_range y x c :
  0 <= y < h -> 0 <= x < w -> 0 <= c < 3 ->
  0 <= copied_before w h y x c < h * w * 3.
Proof using w_range h_range.
  intros Hy Hx Hc. unfold copied_before.
  assert (0 <= (h - 1 - y) * w) by (apply Z.mul_nonneg_nonneg; lia).
  assert ((h - 1 - y) * w + w <= h * w).
  { replace ((h - 1 - y) * w + w) with ((h - y) * w) by lia.
    apply Z.mul_le_mono_nonneg_r; lia. }
  lia.
Qed.

Lemma target_range y x c :
  0 <= y < h -> 0 <= x < w -> 0 <= c < 3 ->
  0 <= target w y x c < h * w * 3.
Proof using w_range h_range.
  intros Hy Hx Hc. unfold target.
  assert (0 <= y * w) by (apply Z.mul_nonneg_nonneg; lia).
  assert (y * w + w <= h * w).
  { replace (y * w + w) with ((y + 1) * w) by lia.
    apply Z.mul_le_mono_nonneg_r; lia. }
  lia.
Qed.

Lemma pixel_index_target y x c :
  0 <= y < h -> 0 <= x < w -> 0 <= c < 3 ->
  pixel_index w y x c = target w y x c.
Proof using w_range h_range samples_fit.
  intros Hy Hx Hc. pose proof (target_range y x c Hy Hx Hc) as Ht.
  unfold target in Ht. unfold pixel_index, u32_add, u32_mul.
  assert (0 <= y * w) by (apply Z.mul_nonneg_nonneg; lia).
  unfold INT_MAX, two32, target in *.
  rewrite (to_uint32_small y), (to_uint32_small x), (to_uint32_small c)
    by (unfold two32; lia).
  rewrite (to_uint32_small (y * w)) by (unfold two32; lia).
  rewrite (to_uint32_small (y * w + x)) by (unfold two32; lia).
  rewrite (to_uint32_small ((y * w + x) * 3)) by (unfold two32; lia).
  apply to_uint32_small. unfold two32; lia.
Qed.

(** One [memcpy]: sample [(y, x, c)] is copied and the count goes up. *)
Lemma copy_sample_step y x c st :
  0 <= y < h -> 0 <= x < w -> 0 <= c < 3 ->
  copied data w h off0 (copied_before w h y x c) st ->
  exists st', copy_sample data (pixel_index w y x c) st = Normal st' /\
              copied data w h off0 (copied_before w h y x c + 1) st'.
Proof using All.
  intros Hy Hx Hc (Hoff & Hlen & Hdone). destruct st as [px off]. simpl in *.
  pose proof (copied_before_range y x c Hy Hx Hc) as Hk.
  pose proof (target_range y x c Hy Hx Hc) as Ht.
  rewrite pixel_index_target by assumption. unfold copy_sample.
  destruct (memcpy_float_in_bounds data off) as [v Hv]; [lia|lia|].
  rewrite Hv. destruct (Z.ltb_spec (target w y x c) (len px)); [|lia].
  eexists. split; [reflexivity|]. split; [|split]; simpl.
  - unfold size_add. rewrite to_size_t_small; unfold two64, LONG_MAX in *; lia.
  - unfold len in *. rewrite length_insert. exact Hlen.
  - intros y' x' c' Hy' Hx' Hc' Hlt.
    destruct (Z.eq_dec (copied_before w h y' x' c') (copied_before w h y x c)) as [He|Hne].
    + unfold copied_before in He.
      apply lex_index_inj in He as (Hyy & -> & ->); try assumption.
      assert (y' = y) as -> by lia.
      rewrite list_lookup_insert_eq by (unfold len in *; lia).
      rewrite <- Hoff. symmetry. exact Hv.
    + rewrite list_lookup_insert_ne.
      * apply Hdone; try assumption. lia.
      * intros Heq. apply Hne.
        pose proof (target_range y' x' c' Hy' Hx' Hc').
        assert (Ht' : target w y x c = target w y' x' c') by lia.
        unfold target in Ht'.
        apply lex_index_inj in Ht' as (-> & -> & ->); try assumption.
        reflexivity.
Qed.

(** The three channels of one pixel. *)
Lemma copy_channels y x st :
  0 <= y < h -> 0 <= x < w ->
  copied data w h off0 (copied_before w h y x 0) st ->
  exists st',
    for_count 3 0 1 (fun c => copy_sample data (pixel_index w y x c)) st
      = Normal st' /\
    copied data w h off0 (copied_before w h y (x + 1) 0) st'.
Proof using All.
  intros Hy Hx Hst.
  destruct (for_count_inv (fun c => copied data w h off0 (copied_before w h y x c))
              (fun c => copy_sample data (pixel_index w y x c)) 1 3 0 st Hst)
    as (st' & Hrun & Hinv).
  - intros k j s1 Hk -> Hj.
    destruct (copy_sample_step y x (0 + k * 1) s1) as (s2 & Hs2 & Hinv);
      [assumption|assumption|lia|exact Hj|].
    exists s2. split; [exact Hs2|].
    replace (copied_before w h y x (0 + k * 1 + 1))
      with (copied_before w h y x (0 + k * 1) + 1) by (unfold copied_before; lia).
    exact Hinv.
  - exists st'. split; [exact Hrun|].
    replace (copied_before w h y (x + 1) 0)
      with (copied_before w h y x (0 + Z.of_nat 3 * 1)) by (unfold copied_before; lia).
    exact Hinv.
Qed.

(** The pixels of one row. *)
Lemma copy_row y st :
  0 <= y < h ->
  copied data w h off0 (copied_before w h y 0 0) st ->
  exists st',
    for_count (Z.to_nat (to_int w)) 0 1 (fun x =>
      for_count 3 0 1 (fun c => copy_sample data (pixel_index w y x c))) st
      = Normal st' /\
    copied data w h off0 (copied_before w h (y - 1) 0 0) st'.
Proof using All.
  intros Hy Hst. rewrite to_int_small by assumption.
  destruct (for_count_inv (fun x => copied data w h off0 (copied_before w h y x 0))
              (fun x => for_count 3 0 1
                 (fun c => copy_sample data (pixel_index w y x c)))
              1 (Z.to_nat w) 0 st Hst)
    as (st' & Hrun & Hinv).
  - intros k j s1 Hk -> Hj.
    apply copy_channels; [assumption|lia|exact Hj].
  - exists st'. split; [exact Hrun|].
    replace (copied_before w h (y - 1) 0 0)
      with (copied_before w h y (0 + Z.of_nat (Z.to_nat w) * 1) 0)
      by (unfold copied_before; lia).
    exact Hinv.
Qed.

(** The whole copy: every sample of the payload reaches its target. *)
Lemma copy_pixels_all px :
  len px = h * w * 3 ->
  exists px' off',
    copy_pixels data w h px off0 = Normal (px', off') /\
    len px' = h * w * 3 /\
    forall y x c, 0 <= y < h -> 0 <= x < w -> 0 <= c < 3 ->
      px' !! Z.to_nat (target w y x c) =
        memcpy_float data (off0 + 4 * copied_before w h y x c) /\
      is_Some (px' !! Z.to_nat (target w y x c)).
Proof using All.
  intros Hlen. unfold copy_pixels.
  assert (Hy0 : to_int (u32_sub h 1) = h - 1).
  { unfold u32_sub. destruct (Z.eq_dec h 0) as [->|Hnz].
    - reflexivity.
    - rewrite to_uint32_small by (unfold two32, INT_MAX in *; lia).
      apply to_int_small. unfold INT_MAX in *. lia. }
  rewrite Hy0.
  destruct (for_count_inv (fun y => copied data w h off0 (copied_before w h y 0 0))
              (fun y => for_count (Z.to_nat (to_int w)) 0 1 (fun x =>
                 for_count 3 0 1
                   (fun c => copy_sample data (pixel_index w y x c))))
              (-1) (Z.to_nat (h - 1 + 1)) (h - 1) (px, off0))
    as ([px' off'] & Hrun & Hoff & Hlen' & Hinv).
  - split; [|split]; simpl.
    + unfold copied_before. lia.
    + exact Hlen.
    + intros y x c Hy Hx Hc Hlt.
      pose proof (copied_before_range y x c Hy Hx Hc).
      unfold copied_before in *. lia.
  - intros k j s1 Hk -> Hj.
    destruct (copy_row (h - 1 + k * -1) s1) as (s2 & Hs2 & Hinv);
      [lia|exact Hj|].
    exists s2. split; [exact Hs2|].
    replace (h - 1 + k * -1 + -1) with (h - 1 + k * -1 - 1) by lia. exact Hinv.
  - exists px', off'. split; [exact Hrun|]. split; [exact Hlen'|].
    simpl in *. intros y x c Hy Hx Hc.
    pose proof (copied_before_range y x c Hy Hx Hc) as Hk.
    assert (Hv : px' !! Z.to_nat (target w y x c) =
                 memcpy_float data (off0 + 4 * copied_before w h y x c)).
    { apply Hinv; try assumption. unfold copied_before in *. lia. }
    split; [exact Hv|]. rewrite Hv. apply memcpy_float_in_bounds; lia.
Qed.

End CopyPixels.

(** ** Accepted files *)

Lemma payload_len data :
  header_size data <= len data ->
  len (payload data) = len data - header_size data.
Proof.
  intros Hle. pose proof (header_size_bound data).
  unfold payload, len in *. rewrite length_drop. lia.
Qed.

Lemma for_count_preserves {St : Type} (P : St -> Prop)
    (body : Z -> St -> outcome St) (step : Z) :
  (forall j s s', P s -> body j s = Normal s' -> P s') ->
  forall n i s s', P s -> for_count n i step body s = Normal s' -> P s'.
Proof.
  intros Hb. induction n as [|n IH]; intros i s s' Hs; simpl.
  - intros [= <-]. exact Hs.
  - destruct (body i s) as [s1| |] eqn:Hs1; simpl; try discriminate.
    apply IH. apply (Hb i s); assumption.
Qed.

(** The copy never changes the number of samples. *)
Lemma copy_pixels_length data xs ys px off px' off' :
  copy_pixels data xs ys px off = Normal (px', off') -> len px' = len px.
Proof.
  unfold copy_pixels. intros Hrun.
  apply (for_count_preserves (fun st => len (fst st) = len px)) in Hrun;
    [exact Hrun| |reflexivity].
  intros y s s' Hs Hy.
  apply (for_count_preserves (fun st => len (fst st) = len px)) in Hy;
    [exact Hy| |exact Hs].
  clear. intros x s s' Hs Hx.
  apply (for_count_preserves (fun st => len (fst st) = len px)) in Hx;
    [exact Hx| |exact Hs].
  clear. intros c [p o] s' Hs. unfold copy_sample.
  destruct (memcpy_float data o); [|discriminate].
  destruct (_ <? _); [|discriminate].
  intros [= <-]. simpl in *. unfold len in *. rewrite length_insert. exact Hs.
Qed.

(** What a [true] return of [ReadPFM] tells about the file. *)
Lemma ReadPFM_accept_inv host f data px0 xs0 ys0 r :
  read_ok f data ->
  ReadPFM host f px0 xs0 ys0 = Normal r -> ret r = true ->
  exists h off',
    header_of data = Some h /\
    xsize r = width h /\ ysize r = height h /\ little h = host /\
    len data = to_uint32 (height h * width h * 3 * 4) + header_size data /\
    copy_pixels data (width h) (height h)
      (vector_resize float_zero (to_uint32 (height h * width h * 3)) px0)
      (header_size data) = Normal (pixels r, off') /\
    message r = None.
Proof.
  intros Hok Hrun Hret. rewrite (ReadPFM_read_ok _ _ _ _ _ _ Hok) in Hrun.
  assert (Hlen : len data < LONG_MAX).
  { destruct Hok as (_ & _ & _ & _ & Hsz & Hl & _). lia. }
  destruct (ReadPFM_data_accepts_header _ _ _ _ _ _ Hrun Hret) as [h Hh].
  rewrite (ReadPFM_data_header _ _ _ _ _ _ Hlen Hh) in Hrun.
  unfold after_header in Hrun.
  destruct (Z.eqb_spec (len data)
              (to_uint32 (height h * width h * 3 * 4) + header_size data))
    as [Hsize|]; simpl in Hrun.
  2:{ injection Hrun as <-. discriminate. }
  destruct (Bool.eqb host (little h)) eqn:Hend; simpl in Hrun.
  2:{ injection Hrun as <-. discriminate. }
  destruct (copy_pixels _ _ _ _ _) as [[px' off']| |] eqn:Hcopy;
    simpl in Hrun; try discriminate.
  injection Hrun as <-. simpl.
  exists h, off'. apply Bool.eqb_prop in Hend. repeat split; auto.
Qed.

(** What it takes for [ReadPFM] to return [true]. *)
Lemma ReadPFM_accepts host f data h px0 xs0 ys0 px' off' :
  read_ok f data -> header_of data = Some h -> little h = host ->
  len data = to_uint32 (height h * width h * 3 * 4) + header_size data ->
  copy_pixels data (width h) (height h)
    (vector_resize float_zero (to_uint32 (height h * width h * 3)) px0)
    (header_size data) = Normal (px', off') ->
  ReadPFM host f px0 xs0 ys0 =
    Normal {| ret := true; pixels := px'; xsize := width h;
              ysize := height h; message := None |}.
Proof.
  intros Hok Hh Hend Hsize Hcopy. rewrite (ReadPFM_read_ok _ _ _ _ _ _ Hok).
  assert (Hlen : len data < LONG_MAX).
  { destruct Hok as (_ & _ & _ & _ & Hsz & Hl & _). lia. }
  rewrite (ReadPFM_data_header _ _ _ _ _ _ Hlen Hh). unfold after_header.
  rewrite <- Hsize, Z.eqb_refl, Hend, Bool.eqb_reflx. simpl.
  rewrite Hcopy. reflexivity.
Qed.

(** C5. Row order is reversed and nothing else: for a file that [ReadPFM]
    accepts with width [w], height [h] and a payload of [w*h*3] floats,
    sample [(y*w + x)*3 + c] of the result is float
    [((h-1-y)*w + x)*3 + c] of the payload, each float being four
    consecutive payload bytes. *)
Theorem ReadPFM_reverses_rows host f data px0 xs0 ys0 r :
  read_ok f data ->
  ReadPFM host f px0 xs0 ys0 = Normal r -> ret r = true ->
  len (payload data) = xsize r * ysize r * 3 * 4 ->
  forall y x c, 0 <= y < ysize r -> 0 <= x < xsize r -> 0 <= c < 3 ->
  exists v,
    payload_float (payload data)
      (((ysize r - 1 - y) * xsize r + x) * 3 + c) = Some v /\
    pixels r !! Z.to_nat ((y * xsize r + x) * 3 + c) = Some v.
Proof.
  intros Hok Hrun Hret Hpay y x c Hy Hx Hc.
  destruct (ReadPFM_accept_inv _ _ _ _ _ _ _ Hok Hrun Hret)
    as (hd & off' & Hh & Hxs & Hys & _ & Hsize & Hcopy & _).
  rewrite Hxs, Hys in *. set (w := width hd) in *. set (h := height hd) in *.
  pose proof (header_size_bound data) as Hb.
  pose proof (to_uint32_range (h * w * 3 * 4)) as Hu.
  rewrite payload_len in Hpay by lia.
  assert (Hlen : len data < LONG_MAX).
  { destruct Hok as (_ & _ & _ & _ & Hsz & Hl & _). lia. }
  assert (Hwh : w <= h * w /\ h <= h * w) by nia.
  assert (Hfit : h * w * 3 * 4 < two32) by lia.
  rewrite (to_uint32_small (h * w * 3)) in Hcopy by (unfold two32 in *; lia).
  destruct (copy_pixels_all data w h (header_size data)) with
    (px := vector_resize float_zero (h * w * 3) px0)
    as (px' & off'' & Hcopy' & _ & Hall);
    try (unfold INT_MAX, two32 in *; lia).
  { apply vector_resize_len. lia. }
  rewrite Hcopy in Hcopy'. injection Hcopy' as <- <-.
  destruct (Hall y x c Hy Hx Hc) as [Hv [v Hs]].
  exists v. split; [|exact Hs].
  unfold payload_float, payload.
  rewrite memcpy_float_drop; [|lia|].
  - rewrite <- Hs, Hv. reflexivity.
  - assert (0 <= copied_before w h y x c < h * w * 3).
    { apply copied_before_range; unfold INT_MAX, two32 in *; lia. }
    unfold copied_before in *. lia.
Qed.

Lemma ReadPFM_header host f data h px0 xs0 ys0 :
  read_ok f data -> header_of data = Some h ->
  ReadPFM host f px0 xs0 ys0 = after_header host data h px0.
Proof.
  intros Hok Hh. rewrite (ReadPFM_read_ok _ _ _ _ _ _ Hok).
  apply ReadPFM_data_header; [|exact Hh].
  destruct Hok as (_ & _ & _ & _ & Hsz & Hl & _). lia.
Qed.

Lemma width_range h : 0 <= width h < two32.
Proof. apply to_uint32_range. Qed.

Lemma height_range h : 0 <= height h < two32.
Proof. apply to_uint32_range. Qed.

(** C6. A payload one byte longer or shorter than [width*height*3*4]:
    [ReadPFM] returns [false] with the size-mismatch message, and the
    pixel vector is the one it was given. *)
Theorem ReadPFM_rejects_off_by_one host f data h px0 xs0 ys0 :
  read_ok f data -> header_of data = Some h ->
  len (payload data) = width h * height h * 3 * 4 + 1 \/
  len (payload data) = width h * height h * 3 * 4 - 1 ->
  exists r,
    ReadPFM host f px0 xs0 ys0 = Normal r /\ ret r = false /\
    pixels r = px0 /\
    message r =
      Some (SizeMismatch (to_int (len data)) (to_int (height h))
              (to_int (width h)) (to_int (header_size data))
              (to_int (to_uint32 (height h * width h * 3 * 4)
                       + header_size data))).
Proof.
  intros Hok Hh Hoff. rewrite (ReadPFM_header _ _ _ _ _ _ _ Hok Hh).
  unfold after_header.
  pose proof (header_size_bound data) as Hb.
  pose proof (width_range h) as Hw. pose proof (height_range h) as Hht.
  assert (Hwh : 0 <= width h * height h) by (apply Z.mul_nonneg_nonneg; lia).
  destruct (Z.eqb_spec (len data)
              (to_uint32 (height h * width h * 3 * 4) + header_size data))
    as [Heq|Hne]; simpl.
  - exfalso.
    pose proof (to_uint32_range (height h * width h * 3 * 4)) as Hu.
    assert (Hhs : header_size data <= len data) by lia.
    rewrite (payload_len _ Hhs) in Hoff.
    unfold to_uint32, two32 in *.
    pose proof (Z.div_mod (height h * width h * 3 * 4) 4294967296) as Hdm.
    lia.
  - eexists. split; [reflexivity|]. simpl. repeat split; reflexivity.
Qed.

(** C7, as the code has it. A file whose header is accepted, whose width
    or height is 0, whose payload is empty and whose declared byte order
    is the host's: [ReadPFM] returns [true] with no sample and the
    declared dimensions. *)
Theorem ReadPFM_empty_image host f data h px0 xs0 ys0 :
  read_ok f data -> header_of data = Some h ->
  width h = 0 \/ height h = 0 ->
  len data = header_size data ->
  little h = host ->
  ReadPFM host f px0 xs0 ys0 =
    Normal {| ret := true; pixels := []; xsize := width h;
              ysize := height h; message := None |}.
Proof.
  intros Hok Hh Hzero Hempty Hend.
  assert (Hprod : height h * width h = 0) by (destruct Hzero as [-> | ->]; lia).
  apply (ReadPFM_accepts host f data h px0 xs0 ys0 [] (header_size data));
    try assumption.
  - replace (height h * width h * 3 * 4) with 0 by lia.
    rewrite to_uint32_small by (unfold two32; lia). lia.
  - replace (height h * width h * 3) with 0 by lia.
    rewrite to_uint32_small by (unfold two32; lia).
    rewrite vector_resize_zero. unfold copy_pixels.
    destruct Hzero as [Hw | Hht].
    + rewrite Hw. apply for_count_skip. intros y s. reflexivity.
    + rewrite Hht. reflexivity.
Qed.

Lemma ReadPFM_empty_image_witness :
  ReadPFM true (regular_file pfm_0x7) [float_zero] 9 9 =
    Normal {| ret := true; pixels := []; xsize := 0; ysize := 7;
              message := None |}.
Proof.
  apply (ReadPFM_empty_image true (regular_file pfm_0x7) pfm_0x7
           {| declared_x := 0; declared_y := 7; little := true |}).
  - apply regular_file_read_ok. reflexivity.
  - reflexivity.
  - left. reflexivity.
  - reflexivity.
  - reflexivity.
Defined.

(** C7 fails as stated: on a little-endian host, the empty 0 x 0 image
    declared big-endian has a valid header and an empty payload, passes
    the size check, and is rejected for its byte order. *)
Lemma empty_image_of_other_endianness_rejected :
  header_of pfm_0x0_big_endian =
    Some {| declared_x := 0; declared_y := 0; little := false |} /\
  len pfm_0x0_big_endian = header_size pfm_0x0_big_endian /\
  ReadPFM true (regular_file pfm_0x0_big_endian) [] 0 0 =
    Normal {| ret := false; pixels := []; xsize := 0; ysize := 0;
              message := Some DifferentEndianness |}.
Proof. repeat split. Qed.

(** C9. The size check and the resize work modulo 2^32. [pfm_wrapped]
    is accepted with width 4 and height 2^31 + 1: its 48 payload bytes
    are [height*width*3*4 mod 2^32], not the product, and the 12 samples
    returned are [height*width*3 mod 2^32]. For [pfm_65536], with no
    payload at all, the size check passes as well; the copy loop then
    runs past the end of the data. *)
Theorem ReadPFM_size_check_wraps :
  (exists r,
     ReadPFM true (regular_file pfm_wrapped) [] 0 0 = Normal r /\
     ret r = true /\ xsize r = 4 /\ ysize r = 2147483649 /\
     two32 < ysize r * xsize r * 3 * 4 /\
     len (payload pfm_wrapped) <> ysize r * xsize r * 3 * 4 /\
     len (payload pfm_wrapped) = (ysize r * xsize r * 3 * 4) mod two32 /\
     len (pixels r) = (ysize r * xsize r * 3) mod two32 /\
     len (pixels r) <> ysize r * xsize r * 3) /\
  (exists h,
     header_of pfm_65536 = Some h /\ width h = 65536 /\ height h = 65536 /\
     two32 < height h * width h * 3 * 4 /\
     len (payload pfm_65536) <> height h * width h * 3 * 4 /\
     len (payload pfm_65536) = (height h * width h * 3 * 4) mod two32 /\
     ReadPFM true (regular_file pfm_65536) [] 0 0 = Undefined).
Proof.
  split.
  - eexists. split; [vm_compute; reflexivity|]. simpl.
    repeat split; try reflexivity; vm_compute; discriminate.
  - eexists. split; [vm_compute; reflexivity|].
    repeat split; try reflexivity; vm_compute; discriminate.
Qed.

(** Whenever [ReadPFM] returns [true], the payload length and the number
    of samples are the products reduced modulo 2^32. *)
Lemma ReadPFM_accepted_sizes host f data px0 xs0 ys0 r :
  read_ok f data ->
  ReadPFM host f px0 xs0 ys0 = Normal r -> ret r = true ->
  len (payload data) = (ysize r * xsize r * 3 * 4) mod two32 /\
  len (pixels r) = (ysize r * xsize r * 3) mod two32.
Proof.
  intros Hok Hrun Hret.
  destruct (ReadPFM_accept_inv _ _ _ _ _ _ _ Hok Hrun Hret)
    as (hd & off' & Hh & -> & -> & _ & Hsize & Hcopy & _).
  pose proof (to_uint32_range (height hd * width hd * 3 * 4)) as Hu.
  pose proof (to_uint32_range (height hd * width hd * 3)) as Hv.
  split.
  - rewrite payload_len by lia. unfold to_uint32 in Hsize. lia.
  - apply copy_pixels_length in Hcopy. rewrite Hcopy.
    rewrite vector_resize_len by lia. reflexivity.
Qed.

(** A dimension token that [std::stoi] refuses ends the call by the
    exception thrown, whatever follows in the file. *)
Lemma ReadPFM_data_stoi_throws host data px xs ys pf xt yt et e :
  tokens data = (pf, xt, yt, et) -> pf = str "PF" ->
  stoi xt = Throws e \/ (exists xv, stoi xt = Normal xv /\ stoi yt = Throws e) ->
  ReadPFM_data host data px xs ys = Throws e.
Proof.
  unfold tokens, ReadPFM_data.
  destruct (getline _ NL) as [pf' s1].
  destruct (getline s1 SP) as [xt' s2].
  destruct (getline s2 NL) as [yt' s3].
  destruct (getline s3 NL) as [et' s4].
  intros [= -> -> -> ->] -> Hthrow.
  rewrite (proj2 (bytes_eqb_eq _ _) eq_refl). simpl negb. cbv iota.
  destruct Hthrow as [Hx | (xv & Hx & Hy)]; rewrite Hx; simpl; [reflexivity|].
  rewrite Hy. reflexivity.
Qed.

(** C10. [ReadPFM] does not always return: with the signature line in
    place, a dimension token without a leading number makes [std::stoi]
    throw [std::invalid_argument], and one beyond [int] makes it throw
    [std::out_of_range]; nothing catches either. *)
Theorem ReadPFM_throws : forall host px xs ys,
  ReadPFM host (regular_file pfm_no_dims) px xs ys = Throws invalid_argument /\
  ReadPFM host (regular_file pfm_bad_width) px xs ys = Throws invalid_argument /\
  ReadPFM host (regular_file pfm_bad_height) px xs ys = Throws invalid_argument /\
  ReadPFM host (regular_file pfm_huge_width) px xs ys = Throws out_of_range.
Proof. intros host px xs ys. repeat split. Qed.

(** ** Decimal numerals and std::stoi *)


Lemma digit_byte_isdigit d : isdigit (digit_byte d) = true.
Proof. destruct d as [|[[[|[]|]|[[]|[]|]|]|[[|[]|]|[[]|[]|]|]|]|]; reflexivity. Qed.




Lemma decimal_digits_all fuel : forall n acc,
  Forall (fun b => isdigit b = true) acc ->
  Forall (fun b => isdigit b = true) (decimal_digits fuel n acc).
Proof.
  induction fuel as [|fuel IH]; intros n acc Hacc; simpl; [exact Hacc|].
  destruct (n <? 10).
  - constructor; [apply digit_byte_isdigit|exact Hacc].
  - apply IH. constructor; [apply digit_byte_isdigit|exact Hacc].
Qed.


Lemma decimal_all n : Forall (fun b => isdigit b = true) (decimal n).
Proof. apply decimal_digits_all. constructor. Qed.



Lemma isdigit_not_delim b :
  isdigit b = true -> Byte.eqb b SP = false /\ Byte.eqb b NL = false.
Proof. destruct b; simpl; intros Hd; try discriminate; split; reflexivity. Qed.


Lemma stoi_range s v : stoi s = Normal v -> INT_MIN <= v <= INT_MAX.
Proof.
  unfold stoi.
  destruct (match skip_space s with
            | [] => (false, skip_space s)
            | b :: r => if Byte.eqb b x2d then (true, r)
                        else if Byte.eqb b x2b then (false, r)
                        else (false, skip_space s)
            end) as [neg [|b s2]]; [discriminate|].
  destruct (isdigit b); [|discriminate].
  set (m := if neg then _ else _).
  destruct (Z.ltb_spec m INT_MIN); [discriminate|].
  destruct (Z.ltb_spec INT_MAX m); [discriminate|].
  intros [= <-]. lia.
Qed.

(** ** Tokens of a written header *)

Lemma split_delim_app d tok r :
  Forall (fun b => Byte.eqb b d = false) tok ->
  split_delim d (tok ++ d :: r) = (tok, Some r).
Proof.
  induction 1 as [|b tok Hb _ IH]; simpl.
  - rewrite (proj2 (byte_eqb_eq d d) eq_refl). reflexivity.
  - rewrite Hb, IH. reflexivity.
Qed.

Lemma decimal_no_delim n :
  Forall (fun b => Byte.eqb b SP = false) (decimal n) /\
  Forall (fun b => Byte.eqb b NL = false) (decimal n).
Proof.
  pose proof (decimal_all n) as Hall. split;
    (eapply Forall_impl; [exact Hall|]); intros b Hb;
    apply isdigit_not_delim in Hb; tauto.
Qed.

Lemma getline_token d tok r :
  Forall (fun b => Byte.eqb b d = false) tok ->
  getline {| rest := tok ++ [d] ++ r; good := true |} d
  = (tok, {| rest := r; good := true |}).
Proof.
  intros Htok. unfold getline. simpl good. cbv iota. simpl rest.
  change (tok ++ [d] ++ r) with (tok ++ d :: r).
  rewrite split_delim_app by exact Htok. reflexivity.
Qed.

Lemma tokens_serialized host w h p :
  tokens (str "PF" ++ [NL] ++ decimal w ++ [SP] ++ decimal h ++ [NL] ++
          endianness_line host ++ [NL] ++ p)
  = (str "PF", decimal w, decimal h, endianness_line host).
Proof.
  unfold tokens.
  rewrite (getline_token NL (str "PF")) by (repeat constructor).
  rewrite (getline_token SP (decimal w)) by apply decimal_no_delim.
  rewrite (getline_token NL (decimal h)) by apply decimal_no_delim.
  rewrite (getline_token NL (endianness_line host))
    by (destruct host; repeat constructor).
  reflexivity.
Qed.

(** ** Reading back a written container *)





Section Rows.

Variables (w h : Z) (samples : list float).
Hypothesis w_nonneg : 0 <= w.
Hypothesis h_nonneg : 0 <= h.
Hypothesis samples_len : len samples = h * w * 3.





End Rows.

(** Every index below [h*w*3] is the target of one sample. *)
Lemma target_surjective w h i :
  0 <= w -> 0 <= h -> 0 <= i < h * w * 3 ->
  exists y x c, 0 <= y < h /\ 0 <= x < w /\ 0 <= c < 3 /\ i = target w y x c.
Proof.
  intros Hw Hh Hi.
  assert (Hwpos : 0 < w) by nia.
  exists (i / (w * 3)), (i mod (w * 3) / 3), (i mod (w * 3) mod 3).
  pose proof (Z.div_mod i (w * 3)) as H1.
  pose proof (Z.mod_pos_bound i (w * 3)) as H2.
  pose proof (Z.div_mod (i mod (w * 3)) 3) as H3.
  pose proof (Z.mod_pos_bound (i mod (w * 3)) 3) as H4.
  assert (H5 : 0 <= i / (w * 3)) by (apply Z.div_pos; lia).
  assert (H6 : i / (w * 3) < h).
  { apply Z.div_lt_upper_bound; [lia|]. nia. }
  assert (H7 : 0 <= i mod (w * 3) / 3) by (apply Z.div_pos; lia).
  assert (H8 : i mod (w * 3) / 3 < w).
  { apply Z.div_lt_upper_bound; lia. }
  unfold target. repeat split; try lia.
Qed.


Lemma header_of_range data h :
  header_of data = Some h ->
  INT_MIN <= declared_x h <= INT_MAX /\ INT_MIN <= declared_y h <= INT_MAX.
Proof.
  unfold header_of. destruct (tokens data) as [[[pf xt] yt] et].
  destruct (bytes_eqb pf (str "PF")); [|discriminate].
  destruct (stoi xt) as [xv| |] eqn:Hx; try discriminate.
  destruct (stoi yt) as [yv| |] eqn:Hy; try discriminate.
  destruct (input_little_endian_of et); [|discriminate].
  intros [= <-]. simpl. split; eapply stoi_range; eassumption.
Qed.



(** The size of the header that [serialize_pfm] writes. *)
Lemma header_size_serialized host w h samples :
  header_size (serialize_pfm host w h samples)
  = len (str "PF") + 1 + len (decimal w) + 1 + len (decimal h) + 1 +
    len (endianness_line host) + 1.
Proof.
  unfold header_size, serialize_pfm. rewrite tokens_serialized. reflexivity.
Qed.





Lemma pfm_20000_header_size : header_size pfm_20000 = 20.
Proof.
  unfold pfm_20000. rewrite header_size_serialized. reflexivity.
Qed.




(** ** Vectors of bytes *)

Lemma resize_bytes_ok n v :
  n <= max_size -> resize_bytes n v = Normal (vector_resize x00 n v).
Proof.
  intros Hn. unfold resize_bytes.
  destruct (Z.ltb_spec max_size n); [lia|reflexivity].
Qed.

Lemma resize_bytes_inv n v v' :
  resize_bytes n v = Normal v' -> n <= max_size /\ v' = vector_resize x00 n v.
Proof.
  unfold resize_bytes. destruct (Z.ltb_spec max_size n); [discriminate|].
  intros [= <-]. split; [assumption|reflexivity].
Qed.

Lemma vector_resize_len_max {A} (z : A) n (v : list A) :
  len (vector_resize z n v) = Z.max 0 n.
Proof.
  unfold vector_resize, len.
  rewrite length_app, length_take, length_replicate. lia.
Qed.

(** A resize keeps every prefix that fits both the old and the new size. *)
Lemma vector_resize_take {A} (z : A) n k (v : list A) :
  0 <= k <= n -> k <= len v ->
  take (Z.to_nat k) (vector_resize z n v) = take (Z.to_nat k) v.
Proof.
  intros Hk Hv. unfold vector_resize, len in *.
  rewrite take_app_le by (rewrite length_take; lia).
  rewrite take_take. f_equal. lia.
Qed.

Lemma vector_resize_shrink {A} (z : A) n (v : list A) :
  0 <= n <= len v -> vector_resize z n v = take (Z.to_nat n) v.
Proof.
  intros Hn. unfold vector_resize, len in *.
  replace (Z.to_nat n - length v)%nat with 0%nat by lia.
  simpl. apply app_nil_r.
Qed.

Lemma write_at_len buf off chunk :
  0 <= off -> off + len chunk <= len buf ->
  len (write_at buf off chunk) = len buf.
Proof.
  intros Ho Hfit. unfold write_at, len in *.
  rewrite !length_app, length_take, length_drop. lia.
Qed.

Lemma write_at_written buf off chunk :
  0 <= off -> off + len chunk <= len buf ->
  take (Z.to_nat (off + len chunk)) (write_at buf off chunk)
  = take (Z.to_nat off) buf ++ chunk.
Proof.
  intros Ho Hfit. unfold write_at, len in *.
  rewrite app_assoc. apply take_app_length'.
  rewrite length_app, length_take. lia.
Qed.

(** ** One iteration of the output loop *)

Section DrainSteps.

Context {E : Type} `{Encoder E}.

Lemma process_output_inv (s s1 : drain_state E) :
  process_output s = Normal s1 ->
  exists chunk,
    JxlEncoderProcessOutput (enc s) (avail_out s)
      = (process_result s1, chunk, enc s1) /\
    len chunk <= avail_out s /\
    buffer s1 = write_at (buffer s) (next_out s) chunk /\
    next_out s1 = next_out s + len chunk /\
    avail_out s1 = avail_out s - len chunk.
Proof.
  unfold process_output.
  destruct (JxlEncoderProcessOutput (enc s) (avail_out s)) as [[st chunk] e].
  destruct (Z.ltb_spec (avail_out s) (len chunk)); [discriminate|].
  intros [= <-]. simpl. exists chunk. repeat split. assumption.
Qed.


(** The encoder call leaves the size alone and appends to what is written. *)
Lemma process_output_keeps (s s1 : drain_state E) :
  cursor_ok s -> process_output s = Normal s1 ->
  cursor_ok s1 /\ len (buffer s1) = len (buffer s) /\
  next_out s <= next_out s1 /\
  exists chunk,
    JxlEncoderProcessOutput (enc s) (avail_out s)
      = (process_result s1, chunk, enc s1) /\
    written s1 = written s ++ chunk.
Proof.
  intros (Hcur & Hav & Hmax) Hrun.
  destruct (process_output_inv _ _ Hrun) as (chunk & Hcall & Hfit & Hb & Hn & Ha).
  pose proof (len_nonneg chunk) as Hc.
  assert (Hl : len (buffer s1) = len (buffer s)).
  { rewrite Hb. apply write_at_len; lia. }
  split; [|split; [exact Hl|split; [lia|]]].
  - unfold cursor_ok. rewrite Hl, Hn, Ha. lia.
  - exists chunk. split; [exact Hcall|].
    unfold written. rewrite Hb, Hn. apply write_at_written; lia.
Qed.

(** Growth doubles the size, keeps the cursor and keeps what is written. *)
Lemma grow_doubles (s1 s2 : drain_state E) :
  cursor_ok s1 -> grow s1 = Normal s2 ->
  cursor_ok s2 /\ len (buffer s2) = 2 * len (buffer s1) /\
  next_out s2 = next_out s1 /\ enc s2 = enc s1 /\
  process_result s2 = process_result s1 /\
  take (Z.to_nat (next_out s1)) (buffer s2)
    = take (Z.to_nat (next_out s1)) (buffer s1).
Proof.
  intros (Hcur & Hav & Hmax) Hrun. unfold grow in Hrun.
  pose proof (len_nonneg (buffer s1)) as Hl.
  assert (Hdouble : size_mul (len (buffer s1)) 2 = 2 * len (buffer s1)).
  { unfold size_mul. rewrite to_size_t_small; unfold two64, max_size in *; lia. }
  rewrite Hdouble in Hrun.
  destruct (resize_bytes _ _) as [buf| |] eqn:Hres; simpl in Hrun;
    try discriminate.
  apply resize_bytes_inv in Hres as [Hle ->].
  injection Hrun as <-. unfold cursor_ok. simpl.
  rewrite vector_resize_len by lia.
  assert (Ha : size_sub (2 * len (buffer s1)) (next_out s1)
               = 2 * len (buffer s1) - next_out s1).
  { unfold size_sub. rewrite to_size_t_small; unfold two64, max_size in *; lia. }
  rewrite Ha. repeat split; try lia.
  apply vector_resize_take; lia.
Qed.



Lemma status_eqb_eq a b : status_eqb a b = true <-> a = b.
Proof. destruct a, b; simpl; split; intros Hab; congruence. Qed.

Lemma status_eqb_neq a b : status_eqb a b = false <-> a <> b.
Proof. destruct a, b; simpl; split; intros Hab; congruence. Qed.

(** One iteration: the size never goes down; if the encoder asked for
    more space it has doubled; what was written is still there, followed
    by the new bytes. *)
Lemma loop_body_keeps (s s' : drain_state E) :
  cursor_ok s -> loop_body s = Normal s' ->
  cursor_ok s' /\ len (buffer s) <= len (buffer s') /\
  (process_result s' = JXL_ENC_NEED_MORE_OUTPUT ->
   len (buffer s') = 2 * len (buffer s)) /\
  exists chunk,
    JxlEncoderProcessOutput (enc s) (avail_out s)
      = (process_result s', chunk, enc s') /\
    written s' = written s ++ chunk.
Proof.
  intros Hok Hrun. unfold loop_body in Hrun.
  destruct (process_output s) as [s1| |] eqn:Hs1; simpl in Hrun;
    try discriminate.
  destruct (process_output_keeps _ _ Hok Hs1)
    as (Hok1 & Hlen1 & Hnext & chunk & Hcall & Hw).
  destruct (status_eqb (process_result s1) JXL_ENC_NEED_MORE_OUTPUT) eqn:Hst.
  - destruct (grow_doubles _ _ Hok1 Hrun)
      as (Hok2 & Hlen2 & Hn2 & He2 & Hp2 & Hpre).
    pose proof (len_nonneg (buffer s)).
    split; [exact Hok2|]. split; [lia|]. split; [intros _; lia|].
    exists chunk. rewrite Hp2, He2. split; [exact Hcall|].
    rewrite <- Hw. unfold written. rewrite Hn2. exact Hpre.
  - injection Hrun as <-. apply status_eqb_neq in Hst.
    split; [exact Hok1|]. split; [lia|]. split; [contradiction|].
    exists chunk. split; [exact Hcall|exact Hw].
Qed.

(** ** Runs of the loop *)

Lemma loop_run_keeps (s s' : drain_state E) chunks :
  loop_run s chunks s' -> cursor_ok s ->
  cursor_ok s' /\ len (buffer s) <= len (buffer s') /\
  written s' = written s ++ mjoin chunks.
Proof.
  induction 1 as [s|s st chunk e s' chunks s'' Hneed Hcall Hbody Hrun IH];
    intros Hok.
  - split; [exact Hok|]. split; [lia|]. simpl. rewrite app_nil_r. reflexivity.
  - destruct (loop_body_keeps _ _ Hok Hbody)
      as (Hok' & Hle & _ & chunk' & Hcall' & Hw).
    rewrite Hcall in Hcall'. injection Hcall' as _ <- _.
    destruct (IH Hok') as (Hok'' & Hle' & Hw').
    split; [exact Hok''|]. split; [lia|].
    rewrite Hw', Hw. simpl. rewrite <- app_assoc. reflexivity.
Qed.

(** With enough fuel the executable loop follows a run to its end. *)
Lemma drain_loop_run (s s' : drain_state E) chunks :
  loop_run s chunks s' ->
  process_result s' <> JXL_ENC_NEED_MORE_OUTPUT ->
  forall fuel, (length chunks <= fuel)%nat ->
  drain_loop fuel s = Some (Normal s').
Proof.
  induction 1 as [s|s st chunk e s' chunks s'' Hneed Hcall Hbody Hrun IH];
    intros Hend fuel Hfuel.
  - apply status_eqb_neq in Hend. destruct fuel; simpl; rewrite Hend; reflexivity.
  - destruct fuel as [|fuel]; simpl in Hfuel; [lia|].
    simpl. rewrite Hneed. simpl. rewrite Hbody. apply IH; [exact Hend|lia].
Qed.

(** Conversely, what the executable loop returns is the end of a run. *)
Lemma drain_loop_inv fuel : forall (s s' : drain_state E),
  drain_loop fuel s = Some (Normal s') ->
  exists chunks, loop_run s chunks s' /\
    process_result s' <> JXL_ENC_NEED_MORE_OUTPUT /\
    (length chunks <= fuel)%nat.
Proof.
  induction fuel as [|fuel IH]; intros s s'; simpl;
    destruct (status_eqb (process_result s) JXL_ENC_NEED_MORE_OUTPUT) eqn:Hst;
    try discriminate.
  - intros [= <-]. exists []. apply status_eqb_neq in Hst.
    split; [apply run_here|]. split; [exact Hst|simpl; lia].
  - apply status_eqb_eq in Hst.
    destruct (loop_body s) as [s1| |] eqn:Hbody; try discriminate.
    intros Hrun. destruct (IH _ _ Hrun) as (chunks & Hr & Hend & Hlen).
    pose proof Hbody as Hb. unfold loop_body in Hb.
    destruct (process_output s) as [sm| |] eqn:Hpo; simpl in Hb;
      try discriminate.
    destruct (process_output_inv _ _ Hpo) as (chunk & Hcall & _).
    exists (chunk :: chunks).
    split; [eapply run_more; eassumption|]. split; [exact Hend|simpl; lia].
  - intros [= <-]. exists []. apply status_eqb_neq in Hst.
    split; [apply run_here|]. split; [exact Hst|simpl; lia].
Qed.

Lemma drain_init_ok start (e : E) (out : bytes) :
  0 <= start <= max_size ->
  exists s0, drain_init start e out = Normal s0 /\ cursor_ok s0 /\
    enc s0 = e /\ len (buffer s0) = start /\ next_out s0 = 0 /\
    avail_out s0 = start /\
    process_result s0 = JXL_ENC_NEED_MORE_OUTPUT.
Proof.
  intros Hs. unfold drain_init. rewrite resize_bytes_ok by lia. simpl.
  eexists. split; [reflexivity|]. simpl.
  rewrite vector_resize_len by lia.
  assert (Ha : size_sub start 0 = start).
  { unfold size_sub. rewrite to_size_t_small; unfold two64, max_size in *; lia. }
  unfold cursor_ok. simpl. rewrite vector_resize_len, Ha by lia.
  repeat split; lia.
Qed.

Lemma drain_init_inv start (e : E) (out : bytes) s0 :
  drain_init start e out = Normal s0 ->
  cursor_ok s0 /\ next_out s0 = 0 /\ len (buffer s0) = Z.max 0 start.
Proof.
  unfold drain_init. intros Hrun.
  destruct (resize_bytes start out) as [buf| |] eqn:Hres; simpl in Hrun;
    try discriminate.
  apply resize_bytes_inv in Hres as [Hle ->]. injection Hrun as <-.
  unfold cursor_ok. simpl. rewrite vector_resize_len_max.
  assert (Ha : size_sub (Z.max 0 start) 0 = Z.max 0 start).
  { unfold size_sub. rewrite to_size_t_small; unfold two64, max_size in *; lia. }
  rewrite Ha. unfold max_size in *. repeat split; lia.
Qed.

(** The drain along a run: the last status, and the bytes written by the
    encoder, in order, as the buffer. *)
Lemma drain_run start (e : E) (out : bytes) s0 s chunks fuel :
  drain_init start e out = Normal s0 ->
  loop_run s0 chunks s ->
  process_result s <> JXL_ENC_NEED_MORE_OUTPUT ->
  (length chunks <= fuel)%nat ->
  drain start fuel e out = Some (Normal (process_result s, mjoin chunks, enc s)).
Proof.
  intros Hinit Hrun Hend Hfuel. unfold drain. rewrite Hinit.
  rewrite (drain_loop_run _ _ _ Hrun Hend fuel Hfuel).
  destruct (drain_init_inv _ _ _ _ Hinit) as (Hok & Hn0 & _).
  destruct (loop_run_keeps _ _ _ Hrun Hok) as ((Hcur & _ & _) & _ & Hw).
  rewrite vector_resize_shrink by lia.
  fold (written s). rewrite Hw. unfold written. rewrite Hn0. reflexivity.
Qed.

End DrainSteps.

(** ** The drain *)

Section DrainClaims.

Context {E : Type} `{Encoder E}.









(** C2. Throughout the loop the buffer never gets smaller; when the
    encoder asks for more space the size is doubled before the next
    call, and the resize leaves the written prefix [[0, next_out)] as it
    was. Here [s] is any state the loop reaches from its start, [s1] the
    state right after the encoder call made in [s], and [s'] the state at
    the next loop test. *)
Theorem drain_growth start (e : E) (out : bytes) s0 chunks s s1 s' :
  drain_init start e out = Normal s0 ->
  loop_run s0 chunks s ->
  process_result s = JXL_ENC_NEED_MORE_OUTPUT ->
  process_output s = Normal s1 ->
  loop_body s = Normal s' ->
  len (buffer s0) <= len (buffer s) /\
  len (buffer s) <= len (buffer s') /\
  (process_result s1 = JXL_ENC_NEED_MORE_OUTPUT ->
   2 * len (buffer s) <= len (buffer s') /\
   len (buffer s') = 2 * len (buffer s1) /\
   next_out s' = next_out s1 /\
   take (Z.to_nat (next_out s1)) (buffer s')
     = take (Z.to_nat (next_out s1)) (buffer s1)).
Proof.
  intros Hinit Hrun Hneed Hs1 Hbody.
  destruct (drain_init_inv _ _ _ _ Hinit) as (Hok0 & _ & _).
  destruct (loop_run_keeps _ _ _ Hrun Hok0) as (Hok & Hle & _).
  destruct (loop_body_keeps _ _ Hok Hbody) as (_ & Hle' & _).
  split; [exact Hle|]. split; [exact Hle'|].
  intros Hmore. unfold loop_body in Hbody. rewrite Hs1 in Hbody. simpl in Hbody.
  rewrite (proj2 (status_eqb_eq _ _) Hmore) in Hbody.
  destruct (process_output_keeps _ _ Hok Hs1) as (Hok1 & Hlen1 & _).
  destruct (grow_doubles _ _ Hok1 Hbody) as (_ & Hlen2 & Hn2 & _ & _ & Hpre).
  pose proof (len_nonneg (buffer s)).
  repeat split; try assumption; lia.
Qed.

(** C3, as the code has it. When the loop ends on a status that is not
    success, [EncodeJxlOneshot] returns [false] after destroying the
    runner and the encoder; the caller's buffer is not emptied: it is cut
    to the bytes the encoder has written so far, [chunks] in order. *)
Theorem EncodeJxlOneshot_process_error fuel px xs ys (out : bytes)
    (e1 e2 e3 : E) s0 chunks s :
  JxlEncoderSetParallelRunner JxlEncoderCreate = (JXL_ENC_SUCCESS, e1) ->
  JxlEncoderSetDimensions e1 xs ys = (JXL_ENC_SUCCESS, e2) ->
  JxlEncoderAddImageFrame e2 pixel_format px (size_mul 4 (len px))
    = (JXL_ENC_SUCCESS, e3) ->
  drain_init 64 e3 out = Normal s0 ->
  loop_run s0 chunks s ->
  process_result s <> JXL_ENC_NEED_MORE_OUTPUT ->
  process_result s <> JXL_ENC_SUCCESS ->
  (length chunks <= fuel)%nat ->
  EncodeJxlOneshot fuel px xs ys out
  = Some (Normal {| ok := false; compressed := mjoin chunks;
                    calls := [EncoderCreate; RunnerCreate;
                              RunnerDestroy; EncoderDestroy];
                    complaint := Some ProcessOutputFailed |}).
Proof.
  intros Hr Hd Hf Hinit Hrun Hend Herr Hfuel.
  unfold EncodeJxlOneshot, EncodeJxlOneshot_from.
  rewrite Hr. simpl. rewrite Hd. simpl. rewrite Hf. simpl.
  rewrite (drain_run 64 e3 out s0 s chunks fuel Hinit Hrun Hend Hfuel).
  destruct (process_result s); try contradiction. reflexivity.
Qed.

(** C4 at work. Whenever [EncodeJxlOneshot] returns, the encoder has been
    destroyed; the runner has been destroyed on the four failure returns,
    and on the success return it has not. *)
Theorem EncodeJxlOneshot_releases fuel px xs ys (out : bytes) r :
  EncodeJxlOneshot fuel px xs ys out = Some (Normal r) ->
  (ok r = false ->
   calls r = [EncoderCreate; RunnerCreate; RunnerDestroy; EncoderDestroy]) /\
  (ok r = true ->
   calls r = [EncoderCreate; RunnerCreate; EncoderDestroy] /\
   RunnerDestroy ∉ calls r).
Proof.
  unfold EncodeJxlOneshot, EncodeJxlOneshot_from, encode_fails.
  destruct (JxlEncoderSetParallelRunner JxlEncoderCreate) as [[] e1]; simpl;
    try (intros [= <-]; simpl; split; [reflexivity|discriminate]).
  destruct (JxlEncoderSetDimensions e1 xs ys) as [[] e2]; simpl;
    try (intros [= <-]; simpl; split; [reflexivity|discriminate]).
  destruct (JxlEncoderAddImageFrame e2 pixel_format px _) as [[] e3]; simpl;
    try (intros [= <-]; simpl; split; [reflexivity|discriminate]).
  destruct (drain 64 fuel e3 out) as [[[[[] buf] e4]| |]|]; simpl;
    try discriminate;
    try (intros [= <-]; simpl; split; [reflexivity|discriminate]).
  intros [= <-]; simpl.
  split; [discriminate|]. intros _. split; [reflexivity|].
  intros Hin. repeat (apply elem_of_cons in Hin as [Hin|Hin]; [discriminate|]).
  apply elem_of_nil in Hin. exact Hin.
Qed.

End DrainClaims.

(** ** The claims at sample inputs *)

Example ReadPFM_2x1 :
  ReadPFM true (regular_file pfm_2x1) [] 0 0 =
    Normal {| ret := true; pixels := replicate 6 float_zero;
              xsize := 2; ysize := 1; message := None |}.
Proof. reflexivity. Qed.

Example ReadPFM_2x1_big_endian_host :
  ReadPFM false (regular_file pfm_2x1) [] 0 0 =
    Normal {| ret := false; pixels := []; xsize := 2; ysize := 1;
              message := Some DifferentEndianness |}.
Proof. reflexivity. Qed.

Example ReadPFM_1x2 :
  ReadPFM true (regular_file pfm_1x2) [] 0 0 = Normal image_1x2.
Proof. reflexivity. Qed.

Example serialize_pfm_1x2 :
  serialize_pfm true 1 2 (pixels image_1x2) = pfm_1x2.
Proof. reflexivity. Qed.

Example EncodeJxlOneshot_three_then_done :
  EncodeJxlOneshot (H := stub_encoder three_then_done) 4 one_pixel 1 1 [] =
    Some (Normal {| ok := true;
                    compressed := [x01; x02; x03; x04; x05; x06; x07; x08];
                    calls := [EncoderCreate; RunnerCreate; EncoderDestroy];
                    complaint := None |}).
Proof. reflexivity. Qed.

Lemma ReadPFM_reverses_rows_witness :
  exists v,
    payload_float (payload pfm_1x2) (((2 - 1 - 1) * 1 + 0) * 3 + 2) = Some v /\
    pixels image_1x2 !! Z.to_nat ((1 * 1 + 0) * 3 + 2) = Some v.
Proof.
  apply (ReadPFM_reverses_rows true (regular_file pfm_1x2) pfm_1x2 [] 0 0
           image_1x2).
  - apply regular_file_read_ok. reflexivity.
  - reflexivity.
  - reflexivity.
  - reflexivity.
  - simpl. lia.
  - simpl. lia.
  - lia.
Defined.

Lemma ReadPFM_rejects_off_by_one_witness :
  exists r,
    ReadPFM true (regular_file pfm_2x1_short) [float_zero] 5 6 = Normal r /\
    ret r = false /\ pixels r = [float_zero] /\
    message r = Some (SizeMismatch 35 1 2 12 36).
Proof.
  apply (ReadPFM_rejects_off_by_one true (regular_file pfm_2x1_short)
           pfm_2x1_short
           {| declared_x := 2; declared_y := 1; little := true |}
           [float_zero] 5 6).
  - apply regular_file_read_ok. reflexivity.
  - reflexivity.
  - right. reflexivity.
Defined.


(** The image read from [pfm_1x2], written back, is read again. *)
Example ReadPFM_1x2_read_back :
  ReadPFM true
    (regular_file (serialize_pfm true (xsize image_1x2) (ysize image_1x2)
                     (pixels image_1x2)))
    [float_zero] 3 4
  = Normal image_1x2.
Proof. reflexivity. Qed.

(** A container that is accepted without being valid does not come back:
    the height token "-1" is stored as 4294967295, and [std::stoi] refuses
    that number when it is written out in decimal. *)
Example ReadPFM_negative_height_not_read_back :
  ReadPFM true (regular_file (pfm "0 -1" "-1.0" [])) [] 0 0 =
    Normal {| ret := true; pixels := []; xsize := 0; ysize := 4294967295;
              message := None |} /\
  stoi (decimal 4294967295) = Throws out_of_range.
Proof. split; reflexivity. Qed.


Lemma drain_growth_witness :
  len (buffer at_start) <= len (buffer at_start) /\
  len (buffer at_start) <= len (buffer after_growth) /\
  (process_result after_call = JXL_ENC_NEED_MORE_OUTPUT ->
   2 * len (buffer at_start) <= len (buffer after_growth) /\
   len (buffer after_growth) = 2 * len (buffer after_call) /\
   next_out after_growth = next_out after_call /\
   take (Z.to_nat (next_out after_call)) (buffer after_growth)
     = take (Z.to_nat (next_out after_call)) (buffer after_call)).
Proof.
  apply (drain_growth (H := stub_encoder three_then_done) 4 three_then_done []
           at_start [] at_start after_call after_growth).
  - reflexivity.
  - apply run_here.
  - reflexivity.
  - reflexivity.
  - reflexivity.
Defined.

(** C3 fails as stated: after the encoder wrote two bytes and then
    reported an error, [EncodeJxlOneshot] returns [false] and the buffer
    handed back holds those two bytes. *)
Lemma EncodeJxlOneshot_keeps_partial_output :
  exists r,
    EncodeJxlOneshot (H := stub_encoder output_then_error) 2 one_pixel 1 1 []
      = Some (Normal r) /\
    ok r = false /\ compressed r = [x01; x02] /\ compressed r <> [].
Proof.
  eexists. split; [reflexivity|]. simpl.
  split; [reflexivity|]. split; [reflexivity|discriminate].
Qed.

Lemma EncodeJxlOneshot_process_error_witness :
  EncodeJxlOneshot (H := stub_encoder two_chunks_then_error) 3 one_pixel 1 1 []
  = Some (Normal {| ok := false; compressed := [x0a; x0b; x0c; x0d; x0e];
                    calls := [EncoderCreate; RunnerCreate;
                              RunnerDestroy; EncoderDestroy];
                    complaint := Some ProcessOutputFailed |}).
Proof.
  eapply (EncodeJxlOneshot_process_error (H := stub_encoder two_chunks_then_error)
            3 one_pixel 1 1 [] _ _ _ _ [[x0a; x0b; x0c]; [x0d]; [x0e]]).
  - reflexivity.
  - reflexivity.
  - reflexivity.
  - vm_compute. reflexivity.
  - eapply run_more; [reflexivity|reflexivity|vm_compute; reflexivity|].
    eapply run_more; [reflexivity|reflexivity|vm_compute; reflexivity|].
    eapply run_more; [reflexivity|reflexivity|vm_compute; reflexivity|].
    apply run_here.
  - discriminate.
  - discriminate.
  - simpl. lia.
Defined.

Lemma EncodeJxlOneshot_releases_witness :
  (ok {| ok := true; compressed := [x2a];
         calls := [EncoderCreate; RunnerCreate; EncoderDestroy];
         complaint := None |} = false ->
   [EncoderCreate; RunnerCreate; EncoderDestroy]
   = [EncoderCreate; RunnerCreate; RunnerDestroy; EncoderDestroy]) /\
  (ok {| ok := true; compressed := [x2a];
         calls := [EncoderCreate; RunnerCreate; EncoderDestroy];
         complaint := None |} = true ->
   [EncoderCreate; RunnerCreate; EncoderDestroy]
   = [EncoderCreate; RunnerCreate; EncoderDestroy] /\
   RunnerDestroy ∉ [EncoderCreate; RunnerCreate; EncoderDestroy]).
Proof.
  apply (EncodeJxlOneshot_releases (H := stub_encoder done_at_once)
           1 one_pixel 1 1 []
           {| ok := true; compressed := [x2a];
              calls := [EncoderCreate; RunnerCreate; EncoderDestroy];
              complaint := None |}).
  reflexivity.
Defined.

(** * Further properties of the program *)

(** ** ReadPFM: failures *)

Lemma ReadPFM_data_failure_keeps_pixels host data px xs ys r :
  ReadPFM_data host data px xs ys = Normal r -> ret r = false ->
  pixels r = px.
Proof.
  unfold ReadPFM_data, fails.
  destruct (getline _ NL) as [pf s1].
  destruct (getline s1 SP) as [xt s2].
  destruct (getline s2 NL) as [yt s3].
  destruct (getline s3 NL) as [et s4].
  destruct (negb (bytes_eqb pf (str "PF"))).
  { intros [= <-] _. reflexivity. }
  destruct (stoi xt) as [xv| |]; try discriminate.
  destruct (stoi yt) as [yv| |]; try discriminate. simpl.
  destruct (input_little_endian_of et) as [le|].
  2:{ intros [= <-] _. reflexivity. }
  destruct (negb (len data =? _)).
  { intros [= <-] _. reflexivity. }
  destruct (negb (Bool.eqb _ le)).
  { intros [= <-] _. reflexivity. }
  destruct (copy_pixels _ _ _ _ _) as [[px' off']| |]; simpl; try discriminate.
  intros [= <-]. discriminate.
Qed.

(** X1. Whenever [ReadPFM] returns [false], whatever the reason, the
    pixel vector is exactly the one it was given. *)
Theorem ReadPFM_failure_keeps_pixels host f px xs ys r :
  ReadPFM host f px xs ys = Normal r -> ret r = false -> pixels r = px.
Proof.
  unfold ReadPFM, fails.
  repeat (match goal with
          | |- context [if ?b then _ else _] =>
              destruct b; [intros [= <-] _; reflexivity|]
          end).
  apply ReadPFM_data_failure_keeps_pixels.
Qed.

Lemma ReadPFM_failure_keeps_pixels_witness :
  let r := {| ret := false; pixels := [float_zero]; xsize := 2; ysize := 1;
              message := Some (SizeMismatch 35 1 2 12 36) |} in
  ReadPFM true (regular_file pfm_2x1_short) [float_zero] 5 6 = Normal r /\
  ret r = false /\ pixels r = [float_zero].
Proof.
  intros r. split; [reflexivity|]. split; [reflexivity|].
  apply (ReadPFM_failure_keeps_pixels true (regular_file pfm_2x1_short)
           [float_zero] 5 6 r).
  - reflexivity.
  - reflexivity.
Defined.

(** X2. The out-parameters are written only once the signature line has
    been read: when the file cannot be opened, sized, read in full or
    closed, or when its first line is not "PF", [ReadPFM] returns [false]
    with the pixels, [*xsize] and [*ysize] all as they were. *)
Theorem ReadPFM_writes_after_signature host f px xs ys :
  (forall data, read_ok f data -> (tokens data).1.1.1 <> str "PF") ->
  exists m, ReadPFM host f px xs ys = fails px xs ys m.
Proof.
  intros Hsig. unfold ReadPFM.
  destruct (fopen_ok f) eqn:Ho; simpl; [|eexists; reflexivity].
  destruct (fseek_end_ok f) eqn:He; simpl; [|eexists; reflexivity].
  destruct (Z.leb_spec LONG_MAX (ftell_size f)); simpl; [eexists; reflexivity|].
  destruct (Z.ltb_spec (ftell_size f) 0); simpl; [eexists; reflexivity|].
  destruct (fseek_set_ok f) eqn:Hs; simpl; [|eexists; reflexivity].
  destruct (Z.eqb_spec (len (take (Z.to_nat (ftell_size f)) (contents f)))
              (ftell_size f)) as [Hl|]; simpl; [|eexists; reflexivity].
  destruct (fclose_ok f) eqn:Hc; simpl; [|eexists; reflexivity].
  set (data := take (Z.to_nat (ftell_size f)) (contents f)) in *.
  assert (Hok : read_ok f data) by (unfold read_ok; repeat split; auto; lia).
  specialize (Hsig data Hok). revert Hsig.
  unfold tokens, ReadPFM_data.
  destruct (getline _ NL) as [pf s1].
  destruct (getline s1 SP) as [xt s2].
  destruct (getline s2 NL) as [yt s3].
  destruct (getline s3 NL) as [et s4]. simpl. intros Hsig.
  destruct (bytes_eqb pf (str "PF")) eqn:Hpf.
  - apply bytes_eqb_eq in Hpf. contradiction.
  - simpl. eexists. reflexivity.
Qed.

Lemma ReadPFM_writes_after_signature_witness :
  exists m,
    ReadPFM true (regular_file not_a_pfm) [float_zero] 5 6
    = fails [float_zero] 5 6 m.
Proof.
  apply (ReadPFM_writes_after_signature true (regular_file not_a_pfm)).
  intros data (_ & _ & _ & _ & _ & _ & Hd). rewrite <- Hd.
  vm_compute. discriminate.
Defined.

(** X3. The size check comes before the byte-order check and after the
    dimensions are stored: with an accepted header, a file whose length
    is not [header_size + (height*width*3*4 mod 2^32)] is rejected with
    the size message on every host, [*xsize] and [*ysize] already
    holding the declared dimensions, the pixels untouched. *)
Theorem ReadPFM_size_mismatch host f data h px xs ys :
  read_ok f data -> header_of data = Some h ->
  len data <> to_uint32 (height h * width h * 3 * 4) + header_size data ->
  ReadPFM host f px xs ys =
    Normal {| ret := false; pixels := px; xsize := width h;
              ysize := height h;
              message :=
                Some (SizeMismatch (to_int (len data)) (to_int (height h))
                        (to_int (width h)) (to_int (header_size data))
                        (to_int (to_uint32 (height h * width h * 3 * 4)
                                 + header_size data))) |}.
Proof.
  intros Hok Hh Hne. rewrite (ReadPFM_header _ _ _ _ _ _ _ Hok Hh).
  unfold after_header.
  destruct (Z.eqb_spec (len data)
              (to_uint32 (height h * width h * 3 * 4) + header_size data));
    [contradiction|reflexivity].
Qed.

Lemma ReadPFM_size_mismatch_witness :
  ReadPFM true (regular_file pfm_2x1_short_big_endian) [] 0 0 =
    Normal {| ret := false; pixels := []; xsize := 2; ysize := 1;
              message := Some (SizeMismatch 34 1 2 11 35) |}.
Proof.
  apply (ReadPFM_size_mismatch true (regular_file pfm_2x1_short_big_endian)
           pfm_2x1_short_big_endian
           {| declared_x := 2; declared_y := 1; little := false |} [] 0 0).
  - apply regular_file_read_ok. reflexivity.
  - reflexivity.
  - vm_compute. discriminate.
Defined.

(** ** ReadPFM: accepted files *)

Lemma to_int_to_uint32 v : INT_MIN <= v <= INT_MAX -> to_int (to_uint32 v) = v.
Proof.
  intros Hv. unfold to_int, to_uint32, INT_MIN, INT_MAX, two32 in *.
  rewrite Z.mod_mod by lia.
  destruct (Z.lt_ge_cases v 0) as [Hneg|Hpos].
  - replace (v mod 4294967296) with (v + 4294967296).
    + destruct (Z.ltb_spec (v + 4294967296) 2147483648); lia.
    + apply (Z.mod_unique _ _ (-1)); lia.
  - rewrite Z.mod_small by lia.
    destruct (Z.ltb_spec v 2147483648); lia.
Qed.

(** X4. A well-formed file is always accepted, and the image read is a
    function of the file alone: with an accepted header, non-negative
    declared dimensions whose byte count [height*width*3*4] stays below
    2^32, the host's byte order and a payload of exactly that many bytes,
    [ReadPFM] returns [true] with the declared dimensions and one and the
    same vector of [height*width*3] samples, whatever the pixel vector
    and dimensions held before the call. *)
Theorem ReadPFM_accepts_well_formed host f data h :
  read_ok f data -> header_of data = Some h ->
  0 <= declared_x h -> 0 <= declared_y h -> little h = host ->
  declared_y h * declared_x h * 3 * 4 < two32 ->
  len data = header_size data + declared_y h * declared_x h * 3 * 4 ->
  exists img,
    len img = declared_y h * declared_x h * 3 /\
    forall px xs ys,
      ReadPFM host f px xs ys =
        Normal {| ret := true; pixels := img; xsize := declared_x h;
                  ysize := declared_y h; message := None |}.
Proof.
  intros Hok Hh Hx Hy Hend Hfit Hsize.
  destruct (header_of_range _ _ Hh) as [Hxr Hyr].
  assert (Hw : width h = declared_x h).
  { apply to_uint32_small. unfold INT_MAX, two32 in *. lia. }
  assert (Hht : height h = declared_y h).
  { apply to_uint32_small. unfold INT_MAX, two32 in *. lia. }
  set (w := declared_x h) in *. set (ht := declared_y h) in *.
  assert (Hprod : 0 <= ht * w) by (apply Z.mul_nonneg_nonneg; lia).
  assert (Hdl : len data < LONG_MAX).
  { destruct Hok as (_ & _ & _ & _ & Hsz & Hl & _). lia. }
  pose proof (header_size_bound data) as Hb.
  assert (Hcopy : forall px, exists px' off',
            copy_pixels data w ht (vector_resize float_zero (ht * w * 3) px)
              (header_size data) = Normal (px', off') /\
            len px' = ht * w * 3 /\
            forall y x c, 0 <= y < ht -> 0 <= x < w -> 0 <= c < 3 ->
              px' !! Z.to_nat (target w y x c) =
                memcpy_float data
                  (header_size data + 4 * copied_before w ht y x c)).
  { intros px.
    destruct (copy_pixels_all data w ht (header_size data)) with
      (px := vector_resize float_zero (ht * w * 3) px)
      as (px' & off' & Hc & Hl & Hall);
      try (unfold INT_MAX, two32 in *; lia).
    { apply vector_resize_len. lia. }
    exists px', off'. split; [exact Hc|]. split; [exact Hl|].
    intros y x c Hyy Hxx Hcc. apply (Hall y x c Hyy Hxx Hcc). }
  destruct (Hcopy []) as (img & off0 & _ & Hlen0 & Hall0).
  exists img. split; [exact Hlen0|].
  intros px xs ys.
  destruct (Hcopy px) as (px' & off' & Hc & Hlen' & Hall').
  assert (Hsame : px' = img).
  { apply (list_eq_same_length _ _ (Z.to_nat (ht * w * 3)));
      [unfold len in *; lia|unfold len in *; lia|].
    intros i u v Hi Hu Hv.
    destruct (target_surjective w ht (Z.of_nat i))
      as (y & x & c & Hyy & Hxx & Hcc & Ht); [lia|lia|lia|].
    pose proof (Hall0 y x c Hyy Hxx Hcc) as H0.
    pose proof (Hall' y x c Hyy Hxx Hcc) as H1.
    rewrite <- Ht, Nat2Z.id in H0, H1. congruence. }
  subst px'. rewrite <- Hw, <- Hht.
  apply (ReadPFM_accepts host f data h px xs ys img off' Hok Hh Hend).
  - rewrite Hw, Hht, to_uint32_small by (unfold two32 in *; lia). lia.
  - rewrite Hw, Hht, to_uint32_small by (unfold two32 in *; lia). exact Hc.
Qed.

Lemma ReadPFM_accepts_well_formed_witness :
  exists img,
    len img = 2 * 1 * 3 /\
    forall px xs ys,
      ReadPFM true (regular_file pfm_1x2) px xs ys =
        Normal {| ret := true; pixels := img; xsize := 1; ysize := 2;
                  message := None |}.
Proof.
  apply (ReadPFM_accepts_well_formed true (regular_file pfm_1x2) pfm_1x2
           {| declared_x := 1; declared_y := 2; little := true |}).
  - apply regular_file_read_ok. reflexivity.
  - reflexivity.
  - simpl. lia.
  - simpl. lia.
  - reflexivity.
  - reflexivity.
  - reflexivity.
Defined.

(** X5. A dimension token that [std::stoi] reads as a negative number is
    not refused, and then no sample is copied: if [ReadPFM] returns
    [true] for a declared width that is not positive, or for a declared
    height that is not positive (the least [int] apart), the samples
    returned are the vector passed in, cut or filled with zeros to
    [height*width*3 mod 2^32] elements; the payload is not looked at. *)
Theorem ReadPFM_copies_nothing host f data h px xs ys r :
  read_ok f data -> header_of data = Some h ->
  declared_x h <= 0 \/ INT_MIN < declared_y h <= 0 ->
  ReadPFM host f px xs ys = Normal r -> ret r = true ->
  pixels r = vector_resize float_zero (to_uint32 (height h * width h * 3)) px.
Proof.
  intros Hok Hh Hneg Hrun Hret.
  destruct (ReadPFM_accept_inv _ _ _ _ _ _ _ Hok Hrun Hret)
    as (h' & off' & Hh' & _ & _ & _ & _ & Hcopy & _).
  rewrite Hh in Hh'. injection Hh' as <-.
  destruct (header_of_range _ _ Hh) as [Hxr Hyr].
  assert (Hskip : forall st,
            copy_pixels data (width h) (height h) (fst st) (snd st)
            = Normal st).
  { intros [p o]. unfold copy_pixels. simpl.
    destruct Hneg as [Hx|Hy].
    - apply for_count_skip. intros y s.
      unfold width. rewrite to_int_to_uint32 by assumption.
      replace (Z.to_nat (declared_x h)) with 0%nat by lia. reflexivity.
    - assert (Hy0 : to_int (u32_sub (height h) 1) = declared_y h - 1).
      { unfold u32_sub, height, to_uint32, to_int, INT_MIN, INT_MAX, two32 in *.
        rewrite Zminus_mod_idemp_l, Z.mod_mod by lia.
        replace ((declared_y h - 1) mod 4294967296)
          with (declared_y h - 1 + 4294967296).
        + destruct (Z.ltb_spec (declared_y h - 1 + 4294967296) 2147483648); lia.
        + apply (Z.mod_unique _ _ (-1)); lia. }
      rewrite Hy0. replace (Z.to_nat (declared_y h - 1 + 1)) with 0%nat by lia.
      reflexivity. }
  specialize (Hskip (vector_resize float_zero
                       (to_uint32 (height h * width h * 3)) px,
                     header_size data)).
  simpl in Hskip. rewrite Hskip in Hcopy. injection Hcopy as <- _.
  reflexivity.
Qed.

Lemma ReadPFM_copies_nothing_witness :
  let kept := (x09, x09, x09, x09) in
  let r := {| ret := true; pixels := kept :: replicate 11 float_zero;
              xsize := 4; ysize := 2147483649; message := None |} in
  ReadPFM true (regular_file pfm_wrapped) [kept] 0 0 = Normal r /\
  pixels r = vector_resize float_zero (to_uint32 (2147483649 * 4 * 3)) [kept].
Proof.
  intros kept r. split; [reflexivity|].
  apply (ReadPFM_copies_nothing true (regular_file pfm_wrapped) pfm_wrapped
           {| declared_x := 4; declared_y := -2147483647; little := true |}
           [kept] 0 0 r).
  - apply regular_file_read_ok. reflexivity.
  - reflexivity.
  - right. simpl. unfold INT_MIN. lia.
  - reflexivity.
  - reflexivity.
Defined.

(** X6. What holds of every image [ReadPFM] returns with [true]: both
    dimensions are below 2^32, no message was printed, the number of
    samples is [ysize*xsize*3] reduced modulo 2^32 and the payload has
    [ysize*xsize*3*4] bytes, reduced modulo 2^32 as well. *)
Theorem ReadPFM_true_invariant host f data px xs ys r :
  read_ok f data ->
  ReadPFM host f px xs ys = Normal r -> ret r = true ->
  0 <= xsize r < two32 /\ 0 <= ysize r < two32 /\ message r = None /\
  len (pixels r) = (ysize r * xsize r * 3) mod two32 /\
  len (payload data) = (ysize r * xsize r * 3 * 4) mod two32.
Proof.
  intros Hok Hrun Hret.
  destruct (ReadPFM_accepted_sizes _ _ _ _ _ _ _ Hok Hrun Hret) as [Hp Hl].
  destruct (ReadPFM_accept_inv _ _ _ _ _ _ _ Hok Hrun Hret)
    as (h & off' & _ & Hxs & Hys & _ & _ & _ & Hmsg).
  rewrite Hxs, Hys in *.
  repeat split; try assumption; try apply width_range; apply height_range.
Qed.

Lemma ReadPFM_true_invariant_witness :
  0 <= xsize image_1x2 < two32 /\ 0 <= ysize image_1x2 < two32 /\
  message image_1x2 = None /\
  len (pixels image_1x2) = (ysize image_1x2 * xsize image_1x2 * 3) mod two32 /\
  len (payload pfm_1x2)
  = (ysize image_1x2 * xsize image_1x2 * 3 * 4) mod two32.
Proof.
  apply (ReadPFM_true_invariant true (regular_file pfm_1x2) pfm_1x2 [] 0 0).
  - apply regular_file_read_ok. reflexivity.
  - reflexivity.
  - reflexivity.
Defined.

(** ** ReadPFM: the stream *)

(** [ReadPFM_io] is the first part of [ReadPFM]. *)
Lemma ReadPFM_io_agrees host f px xs ys :
  ReadPFM host f px xs ys =
    match ReadPFM_io f with
    | (_, Some data) => ReadPFM_data host data px xs ys
    | (_, None) =>
        fails px xs ys (if fopen_ok f then None else Some CouldNotOpen)
    end.
Proof.
  unfold ReadPFM, ReadPFM_io.
  destruct (fopen_ok f); simpl; [|reflexivity].
  destruct (fseek_end_ok f); simpl; [|reflexivity].
  destruct ((LONG_MAX <=? ftell_size f) || (ftell_size f <? 0)); simpl;
    [reflexivity|].
  destruct (fseek_set_ok f); simpl; [|reflexivity].
  destruct (len (take (Z.to_nat (ftell_size f)) (contents f)) =? ftell_size f);
    simpl; [|reflexivity].
  destruct (fclose_ok f); reflexivity.
Qed.

(** X7. Once the file is open, [ReadPFM] closes it on every path but
    one: after a short [fread] it returns without calling [fclose]. *)
Theorem ReadPFM_closes_unless_short_read f :
  fopen_ok f = true ->
  (Fclose ∈ (ReadPFM_io f).1 <-> short_read f = false).
Proof.
  intros Ho. unfold ReadPFM_io, short_read. rewrite Ho. simpl.
  destruct (fseek_end_ok f); simpl.
  2:{ split; [reflexivity|]. intros _. repeat constructor. }
  destruct ((LONG_MAX <=? ftell_size f) || (ftell_size f <? 0)); simpl.
  { split; [reflexivity|]. intros _. repeat constructor. }
  destruct (fseek_set_ok f); simpl.
  2:{ split; [reflexivity|]. intros _. repeat constructor. }
  destruct (len (take (Z.to_nat (ftell_size f)) (contents f)) =? ftell_size f);
    simpl.
  - destruct (fclose_ok f); simpl;
      (split; [reflexivity|]; intros _; repeat constructor).
  - split; [|discriminate]. intros Hin.
    repeat (apply elem_of_cons in Hin as [Hin|Hin]; [discriminate|]).
    apply elem_of_nil in Hin. contradiction.
Qed.

Lemma ReadPFM_closes_unless_short_read_witness :
  (Fclose ∈ (ReadPFM_io cut_short).1 <-> short_read cut_short = false) /\
  short_read cut_short = true.
Proof.
  split; [|reflexivity].
  apply (ReadPFM_closes_unless_short_read cut_short). reflexivity.
Defined.

(** ** EncodeJxlOneshot *)

Section EncodeMore.

Context {E : Type} `{Encoder E}.

(** X8. A failure before the output loop leaves the caller's buffer
    alone: when [EncodeJxlOneshot] returns [false] for another reason
    than [JxlEncoderProcessOutput], the compressed vector is the one
    passed in, not even resized, and both handles have been destroyed. *)
Theorem EncodeJxlOneshot_setup_failure fuel px xs ys (out : bytes) r :
  EncodeJxlOneshot fuel px xs ys out = Some (Normal r) ->
  ok r = false -> complaint r <> Some ProcessOutputFailed ->
  compressed r = out /\
  calls r = [EncoderCreate; RunnerCreate; RunnerDestroy; EncoderDestroy].
Proof.
  unfold EncodeJxlOneshot, EncodeJxlOneshot_from, encode_fails.
  destruct (JxlEncoderSetParallelRunner JxlEncoderCreate) as [[] e1]; simpl;
    try (intros [= <-]; simpl; split; reflexivity).
  destruct (JxlEncoderSetDimensions e1 xs ys) as [[] e2]; simpl;
    try (intros [= <-]; simpl; split; reflexivity).
  destruct (JxlEncoderAddImageFrame e2 pixel_format px _) as [[] e3]; simpl;
    try (intros [= <-]; simpl; split; reflexivity).
  destruct (drain 64 fuel e3 out) as [[[[[] buf] e4]| |]|]; simpl;
    try discriminate; intros [= <-]; simpl; try discriminate;
    intros _ Hc; contradiction.
Qed.

(** X9. The success path in general: when the three set-up calls succeed
    and the loop, started with 64 bytes, runs through [chunks] and ends
    on success, [EncodeJxlOneshot] returns [true] and the compressed
    vector is the concatenation of [chunks], cut to that length; what the
    vector held before the call is gone. *)
Theorem EncodeJxlOneshot_success fuel px xs ys (out : bytes)
    (e1 e2 e3 : E) s0 chunks s :
  JxlEncoderSetParallelRunner JxlEncoderCreate = (JXL_ENC_SUCCESS, e1) ->
  JxlEncoderSetDimensions e1 xs ys = (JXL_ENC_SUCCESS, e2) ->
  JxlEncoderAddImageFrame e2 pixel_format px (size_mul 4 (len px))
    = (JXL_ENC_SUCCESS, e3) ->
  drain_init 64 e3 out = Normal s0 ->
  loop_run s0 chunks s ->
  process_result s = JXL_ENC_SUCCESS ->
  (length chunks <= fuel)%nat ->
  EncodeJxlOneshot fuel px xs ys out
  = Some (Normal {| ok := true; compressed := mjoin chunks;
                    calls := [EncoderCreate; RunnerCreate; EncoderDestroy];
                    complaint := None |}).
Proof.
  intros Hr Hd Hf Hinit Hrun Hend Hfuel.
  unfold EncodeJxlOneshot, EncodeJxlOneshot_from.
  rewrite Hr. simpl. rewrite Hd. simpl. rewrite Hf. simpl.
  rewrite (drain_run 64 e3 out s0 s chunks fuel Hinit Hrun);
    [|rewrite Hend; discriminate|exact Hfuel].
  rewrite Hend. reflexivity.
Qed.

(** More fuel never changes what the loop has returned. *)
Lemma drain_loop_more_fuel fuel : forall (s : drain_state E) res k,
  drain_loop fuel s = Some res -> drain_loop (fuel + k) s = Some res.
Proof.
  induction fuel as [|fuel IH]; intros s res k.
  - simpl. destruct (status_eqb (process_result s) JXL_ENC_NEED_MORE_OUTPUT)
      eqn:Hst; [discriminate|].
    intros [= <-]. destruct k; simpl; rewrite Hst; reflexivity.
  - simpl. destruct (status_eqb (process_result s) JXL_ENC_NEED_MORE_OUTPUT);
      [|intros Hres; exact Hres].
    destruct (loop_body s) as [s'| |]; try (intros Hres; exact Hres).
    apply IH.
Qed.

(** A loop that starts with a non-empty buffer ends within as many
    iterations as doublings fit below the maximum size. *)
Lemma drain_loop_ends fuel : forall (s : drain_state E),
  cursor_ok s -> 0 < len (buffer s) ->
  max_size < len (buffer s) * 2 ^ Z.of_nat fuel ->
  exists res, drain_loop fuel s = Some res.
Proof.
  induction fuel as [|fuel IH]; intros s Hok Hpos Hbig.
  - pose proof Hok as (_ & _ & Hmax). simpl in Hbig. lia.
  - simpl. destruct (status_eqb (process_result s) JXL_ENC_NEED_MORE_OUTPUT);
      [|eexists; reflexivity].
    destruct (loop_body s) as [s'| |] eqn:Hbody; try (eexists; reflexivity).
    destruct (loop_body_keeps _ _ Hok Hbody) as (Hok' & Hle & Hdouble & _).
    destruct (status_eqb (process_result s') JXL_ENC_NEED_MORE_OUTPUT) eqn:Hst.
    + apply status_eqb_eq in Hst. apply IH; [exact Hok'|lia|].
      rewrite (Hdouble Hst). rewrite Nat2Z.inj_succ, Z.pow_succ_r in Hbig by lia.
      lia.
    + exists (Normal s'). destruct fuel; simpl; rewrite Hst; reflexivity.
Qed.

(** X10. The output loop of [EncodeJxlOneshot] always ends: whatever the
    encoder answers, 57 iterations are enough (the buffer starts at 64
    bytes and cannot double more often below [max_size]), and the result
    is the same for every larger bound. *)
Theorem EncodeJxlOneshot_terminates fuel px xs ys (out : bytes) :
  (57 <= fuel)%nat ->
  exists res,
    EncodeJxlOneshot 57 px xs ys out = Some res /\
    EncodeJxlOneshot fuel px xs ys out = Some res.
Proof.
  intros Hfuel.
  assert (Hdrain : forall e : E, exists res,
            drain 64 57 e out = Some res /\ drain 64 fuel e out = Some res).
  { intros e. unfold drain.
    destruct (drain_init_ok 64 e out)
      as (s0 & Hinit & Hok0 & _ & Hl0 & _); [unfold max_size; lia|].
    rewrite Hinit.
    destruct (drain_loop_ends 57 s0 Hok0) as [res Hres];
      [lia|rewrite Hl0; unfold max_size; vm_compute; reflexivity|].
    pose proof (drain_loop_more_fuel 57 s0 res (fuel - 57) Hres) as Hmore.
    replace (57 + (fuel - 57))%nat with fuel in Hmore by lia.
    rewrite Hres, Hmore. destruct res as [s| |]; eexists; split; reflexivity. }
  unfold EncodeJxlOneshot, EncodeJxlOneshot_from, encode_fails.
  destruct (JxlEncoderSetParallelRunner JxlEncoderCreate) as [st1 e1].
  destruct (negb (status_eqb JXL_ENC_SUCCESS st1));
    [eexists; split; reflexivity|].
  destruct (JxlEncoderSetDimensions e1 xs ys) as [st2 e2].
  destruct (negb (status_eqb JXL_ENC_SUCCESS st2));
    [eexists; split; reflexivity|].
  destruct (JxlEncoderAddImageFrame e2 pixel_format px _) as [st3 e3].
  destruct (negb (status_eqb JXL_ENC_SUCCESS st3));
    [eexists; split; reflexivity|].
  destruct (Hdrain e3) as (res & -> & ->).
  destruct res as [[[st buf] e4]| |]; try (eexists; split; reflexivity).
  destruct (negb (status_eqb JXL_ENC_SUCCESS st)); eexists; split; reflexivity.
Qed.

(** X11. At every test of the loop, the cursor lies inside the buffer,
    the encoder is offered exactly the room behind it, and the bytes
    before it are the bytes the encoder has written so far, in order. *)
Theorem drain_cursor_invariant start (e : E) (out : bytes) s0 chunks s :
  drain_init start e out = Normal s0 ->
  loop_run s0 chunks s ->
  0 <= next_out s <= len (buffer s) /\
  avail_out s = len (buffer s) - next_out s /\
  next_out s = len (mjoin chunks) /\
  take (Z.to_nat (next_out s)) (buffer s) = mjoin chunks.
Proof.
  intros Hinit Hrun.
  destruct (drain_init_inv _ _ _ _ Hinit) as (Hok0 & Hn0 & _).
  destruct (loop_run_keeps _ _ _ Hrun Hok0) as ((Hcur & Hav & _) & _ & Hw).
  unfold written in Hw. rewrite Hn0 in Hw. simpl in Hw.
  split; [exact Hcur|]. split; [exact Hav|]. split; [|exact Hw].
  rewrite <- Hw. unfold len. rewrite length_take. unfold len in Hcur. lia.
Qed.

Lemma loop_run_doubles (s s' : drain_state E) chunks :
  loop_run s chunks s' -> cursor_ok s ->
  process_result s' = JXL_ENC_NEED_MORE_OUTPUT ->
  len (buffer s') = len (buffer s) * 2 ^ Z.of_nat (length chunks).
Proof.
  induction 1 as [s|s st chunk e s' chunks s'' Hneed Hcall Hbody Hrun IH];
    intros Hok Hend.
  - simpl. lia.
  - destruct (loop_body_keeps _ _ Hok Hbody) as (Hok' & _ & Hdouble & _).
    assert (Hneed' : process_result s' = JXL_ENC_NEED_MORE_OUTPUT).
    { inversion Hrun; subst; assumption. }
    rewrite (IH Hok' Hend), (Hdouble Hneed').
    change (length (chunk :: chunks)) with (S (length chunks)).
    rewrite Nat2Z.inj_succ, Z.pow_succ_r by lia. lia.
Qed.

(** X12. While the encoder keeps asking for more space the buffer size
    is known exactly: after [k] iterations it is [start * 2^k] bytes, 64
    times [2^k] in [EncodeJxlOneshot]. *)
Theorem drain_capacity start (e : E) (out : bytes) s0 chunks s :
  0 <= start ->
  drain_init start e out = Normal s0 ->
  loop_run s0 chunks s ->
  process_result s = JXL_ENC_NEED_MORE_OUTPUT ->
  len (buffer s) = start * 2 ^ Z.of_nat (length chunks).
Proof.
  intros Hs Hinit Hrun Hend.
  destruct (drain_init_inv _ _ _ _ Hinit) as (Hok0 & _ & Hl0).
  rewrite (loop_run_doubles _ _ _ Hrun Hok0 Hend), Hl0. f_equal. lia.
Qed.

End EncodeMore.

Lemma EncodeJxlOneshot_setup_failure_witness :
  let r := {| ok := false; compressed := [x01; x02];
              calls := [EncoderCreate; RunnerCreate;
                        RunnerDestroy; EncoderDestroy];
              complaint := Some AddImageFrameFailed |} in
  EncodeJxlOneshot (H := stub_encoder refuses_frame) 0 one_pixel 1 1 [x01; x02]
    = Some (Normal r) /\
  compressed r = [x01; x02] /\
  calls r = [EncoderCreate; RunnerCreate; RunnerDestroy; EncoderDestroy].
Proof.
  intros r. split; [reflexivity|].
  apply (EncodeJxlOneshot_setup_failure (H := stub_encoder refuses_frame)
           0 one_pixel 1 1 [x01; x02] r).
  - reflexivity.
  - reflexivity.
  - discriminate.
Defined.

Lemma EncodeJxlOneshot_success_witness :
  EncodeJxlOneshot (H := stub_encoder three_then_done) 4 one_pixel 1 1
    [x63; x63]
  = Some (Normal {| ok := true;
                    compressed := [x01; x02; x03; x04; x05; x06; x07; x08];
                    calls := [EncoderCreate; RunnerCreate; EncoderDestroy];
                    complaint := None |}).
Proof.
  eapply (EncodeJxlOneshot_success (H := stub_encoder three_then_done)
            4 one_pixel 1 1 [x63; x63] _ _ _ _
            [[x01; x02; x03]; [x04]; [x05; x06]; [x07; x08]]).
  - reflexivity.
  - reflexivity.
  - reflexivity.
  - vm_compute. reflexivity.
  - eapply run_more; [reflexivity|reflexivity|vm_compute; reflexivity|].
    eapply run_more; [reflexivity|reflexivity|vm_compute; reflexivity|].
    eapply run_more; [reflexivity|reflexivity|vm_compute; reflexivity|].
    eapply run_more; [reflexivity|reflexivity|vm_compute; reflexivity|].
    apply run_here.
  - reflexivity.
  - simpl. lia.
Defined.

Lemma EncodeJxlOneshot_terminates_witness :
  exists res,
    EncodeJxlOneshot (H := stub_encoder asks_twice) 57 one_pixel 1 1 []
      = Some res /\
    EncodeJxlOneshot (H := stub_encoder asks_twice) 60 one_pixel 1 1 []
      = Some res.
Proof.
  apply (EncodeJxlOneshot_terminates (H := stub_encoder asks_twice)
           60 one_pixel 1 1 []).
  lia.
Defined.

Lemma drain_cursor_invariant_witness :
  0 <= next_out after_growth <= len (buffer after_growth) /\
  avail_out after_growth = len (buffer after_growth) - next_out after_growth /\
  next_out after_growth = len (mjoin [[x01; x02; x03]]) /\
  take (Z.to_nat (next_out after_growth)) (buffer after_growth)
  = mjoin [[x01; x02; x03]].
Proof.
  apply (drain_cursor_invariant (H := stub_encoder three_then_done) 4
           three_then_done [] at_start).
  - reflexivity.
  - eapply run_more; [reflexivity|reflexivity|reflexivity|apply run_here].
Defined.

Lemma drain_capacity_witness :
  len (buffer after_growth) = 4 * 2 ^ Z.of_nat (length [[x01; x02; x03]]).
Proof.
  apply (drain_capacity (H := stub_encoder three_then_done) 4
           three_then_done [] at_start).
  - lia.
  - reflexivity.
  - eapply run_more; [reflexivity|reflexivity|reflexivity|apply run_here].
  - reflexivity.
Defined.

(** ** WriteFile *)

Lemma WriteFile_true_inv b f :
  wret (WriteFile b f) = true ->
  wopen_ok f = true /\ len b <= Z.max 0 (fwrite_room f) /\
  wclose_ok f = true /\
  stored (WriteFile b f) = Some b /\
  wcalls (WriteFile b f) = [Fopen; Fwrite; Fclose].
Proof.
  unfold WriteFile, fwrite_count. pose proof (len_nonneg b) as Hb.
  destruct (wopen_ok f); simpl; [|discriminate].
  destruct (Z.eqb_spec (Z.min (len b) (Z.max 0 (fwrite_room f))) (len b))
    as [Heq|Hne]; simpl; [|discriminate].
  destruct (wclose_ok f); simpl; [|discriminate].
  intros _. repeat split; try lia.
  rewrite Heq. unfold len. rewrite Nat2Z.id, firstn_all. reflexivity.
Qed.

(** X13. [WriteFile] returns [true] exactly when the file could be
    opened, took every byte and could be closed; the file then holds the
    bytes passed, all of them, and has been closed. *)
Theorem WriteFile_true_iff b f :
  wret (WriteFile b f) = true <->
  wopen_ok f = true /\ len b <= Z.max 0 (fwrite_room f) /\
  wclose_ok f = true /\
  stored (WriteFile b f) = Some b /\
  wcalls (WriteFile b f) = [Fopen; Fwrite; Fclose].
Proof.
  split; [apply WriteFile_true_inv|].
  intros (Ho & Hle & Hc & _). unfold WriteFile, fwrite_count.
  pose proof (len_nonneg b) as Hb. rewrite Ho, Hc. simpl.
  replace (Z.min (len b) (Z.max 0 (fwrite_room f))) with (len b) by lia.
  rewrite Z.eqb_refl. reflexivity.
Qed.

Lemma WriteFile_true_iff_witness :
  wopen_ok roomy = true /\ len [x01; x02] <= Z.max 0 (fwrite_room roomy) /\
  wclose_ok roomy = true /\
  stored (WriteFile [x01; x02] roomy) = Some [x01; x02] /\
  wcalls (WriteFile [x01; x02] roomy) = [Fopen; Fwrite; Fclose].
Proof.
  apply (proj1 (WriteFile_true_iff [x01; x02] roomy)). reflexivity.
Defined.

(** X14. A short write: when the file opens but takes fewer bytes than
    there are, [WriteFile] returns [false] with the message that the
    bytes could not be written, and [fclose] is not called: the stream is
    left open with what it has buffered. The file, emptied by the
    opening, holds only those of the bytes [fwrite] took that have
    already left the stream's buffer: a beginning of them, possibly
    nothing. *)
Theorem WriteFile_short_write b f :
  wopen_ok f = true -> 0 <= fwrite_room f < len b ->
  wret (WriteFile b f) = false /\
  wmessage (WriteFile b f) = Some CouldNotWrite /\
  (Fclose ∉ wcalls (WriteFile b f)) /\
  stored (WriteFile b f)
  = Some (take (Z.to_nat (Z.min (fwrite_room f) (Z.max 0 (flushed_early f))))
            b).
Proof.
  intros Ho Hroom. unfold WriteFile, fwrite_count. rewrite Ho. simpl.
  pose proof (len_nonneg b) as Hb.
  destruct (Z.eqb_spec (Z.min (len b) (Z.max 0 (fwrite_room f))) (len b))
    as [Heq|Hne]; [lia|]. simpl.
  split; [reflexivity|]. split; [reflexivity|]. split.
  - intros Hin.
    repeat (apply elem_of_cons in Hin as [Hin|Hin]; [discriminate|]).
    apply elem_of_nil in Hin. contradiction.
  - replace (Z.min (len b) (Z.max 0 (fwrite_room f)))
      with (fwrite_room f) by lia.
    reflexivity.
Qed.

Lemma WriteFile_short_write_witness :
  wret (WriteFile [x01; x02; x03; x04; x05] nearly_full) = false /\
  wmessage (WriteFile [x01; x02; x03; x04; x05] nearly_full)
    = Some CouldNotWrite /\
  (Fclose ∉ wcalls (WriteFile [x01; x02; x03; x04; x05] nearly_full)) /\
  stored (WriteFile [x01; x02; x03; x04; x05] nearly_full)
  = Some (take (Z.to_nat (Z.min (fwrite_room nearly_full)
                                (Z.max 0 (flushed_early nearly_full))))
            [x01; x02; x03; x04; x05]).
Proof.
  apply (WriteFile_short_write [x01; x02; x03; x04; x05] nearly_full).
  - reflexivity.
  - unfold len. simpl. lia.
Defined.

(** With [nearly_full], whose stream has flushed nothing, the file is
    empty when [WriteFile] returns: the three bytes that [fwrite] took
    are in the buffer of the stream left open. *)
Example short_write_leaves_empty_file :
  stored (WriteFile [x01; x02; x03; x04; x05] nearly_full) = Some [].
Proof. reflexivity. Qed.

(** ** main *)

Section MainProperties.

Context {E : Type} `{Encoder E}.

(** X15. The exit status of [main] tells what was done: it is between 0
    and 4; it is 1 exactly when the argument count is not 3; with 1, 2
    or 3 the output file has not been opened, so that what it held is
    not lost; with 0 the input was read, the encoder succeeded on the
    image read, starting from an empty vector, and the output file holds
    the compressed bytes. *)
Theorem main_exit_code host argc input (out : out_file) xs0 ys0 fuel r :
  main host argc input out xs0 ys0 fuel = Some (Normal r) ->
  0 <= exit_code r <= 4 /\
  (exit_code r = 1 <-> argc <> 3) /\
  (1 <= exit_code r <= 3 -> output r = None) /\
  (exit_code r = 0 ->
   exists img enc_out,
     ReadPFM host input [] xs0 ys0 = Normal img /\ ret img = true /\
     EncodeJxlOneshot fuel (pixels img) (xsize img) (ysize img) []
       = Some (Normal enc_out) /\
     ok enc_out = true /\ output r = Some (compressed enc_out)).
Proof.
  unfold main. destruct (Z.eqb_spec argc 3) as [Hargc|Hargc]; simpl.
  2:{ intros [= <-]. simpl.
      repeat split; intros; try lia; try reflexivity; discriminate. }
  destruct (ReadPFM host input [] xs0 ys0) as [img| |] eqn:Hread;
    try discriminate.
  destruct (ret img) eqn:Hret; simpl.
  2:{ intros [= <-]. simpl.
      repeat split; intros; try lia; try reflexivity; discriminate. }
  destruct (EncodeJxlOneshot fuel (pixels img) (xsize img) (ysize img) [])
    as [[enc_out| |]|] eqn:Henc; try discriminate.
  destruct (ok enc_out) eqn:Hok; simpl.
  2:{ intros [= <-]. simpl.
      repeat split; intros; try lia; try reflexivity; discriminate. }
  destruct (wret (WriteFile (compressed enc_out) out)) eqn:Hw; simpl;
    intros [= <-]; simpl.
  - split; [lia|]. split; [split; intros; [discriminate|lia]|].
    split; [intros; lia|].
    intros _. exists img, enc_out. repeat split; try assumption.
    apply WriteFile_true_inv in Hw as (_ & _ & _ & Hs & _). exact Hs.
  - split; [lia|]. split; [split; intros; [discriminate|lia]|].
    split; [intros; lia|]. intros; discriminate.
Qed.

(** X16. End to end: with three arguments, an input file that [ReadPFM]
    accepts as [img], an encoder whose set-up calls succeed on the
    dimensions and samples of [img] and whose output loop runs through
    [chunks] to success, and an output file that opens, has room and
    closes, [main] returns 0 and the output file holds the concatenation
    of [chunks]. *)
Theorem main_end_to_end host input (out : out_file) xs0 ys0 fuel img
    (e1 e2 e3 : E) s0 chunks s :
  ReadPFM host input [] xs0 ys0 = Normal img -> ret img = true ->
  JxlEncoderSetParallelRunner JxlEncoderCreate = (JXL_ENC_SUCCESS, e1) ->
  JxlEncoderSetDimensions e1 (xsize img) (ysize img) = (JXL_ENC_SUCCESS, e2) ->
  JxlEncoderAddImageFrame e2 pixel_format (pixels img)
    (size_mul 4 (len (pixels img))) = (JXL_ENC_SUCCESS, e3) ->
  drain_init 64 e3 [] = Normal s0 ->
  loop_run s0 chunks s ->
  process_result s = JXL_ENC_SUCCESS ->
  (length chunks <= fuel)%nat ->
  wopen_ok out = true -> len (mjoin chunks) <= fwrite_room out ->
  wclose_ok out = true ->
  main host 3 input out xs0 ys0 fuel
  = Some (Normal {| exit_code := 0; output := Some (mjoin chunks) |}).
Proof.
  intros Hread Hret Hr Hd Hf Hinit Hrun Hend Hfuel Ho Hroom Hc.
  unfold main. simpl. rewrite Hread, Hret. simpl.
  unfold EncodeJxlOneshot, EncodeJxlOneshot_from.
  rewrite Hr. simpl. rewrite Hd. simpl. rewrite Hf. simpl.
  rewrite (drain_run 64 e3 [] s0 s chunks fuel Hinit Hrun);
    [|rewrite Hend; discriminate|exact Hfuel].
  rewrite Hend. simpl.
  unfold WriteFile, fwrite_count. rewrite Ho. simpl.
  pose proof (len_nonneg (mjoin chunks)) as Hb.
  replace (Z.min (len (mjoin chunks)) (Z.max 0 (fwrite_room out)))
    with (len (mjoin chunks)) by lia.
  rewrite Z.eqb_refl, Hc. simpl.
  unfold len. rewrite Nat2Z.id, firstn_all. reflexivity.
Qed.

(** X17. Partial output never reaches the output file: when the input is
    read and the set-up calls succeed but the output loop ends on an
    error, after whatever the encoder has written, [main] returns 3 and
    the output file is not opened. *)
Theorem main_encode_error host input (out : out_file) xs0 ys0 fuel img
    (e1 e2 e3 : E) s0 chunks s :
  ReadPFM host input [] xs0 ys0 = Normal img -> ret img = true ->
  JxlEncoderSetParallelRunner JxlEncoderCreate = (JXL_ENC_SUCCESS, e1) ->
  JxlEncoderSetDimensions e1 (xsize img) (ysize img) = (JXL_ENC_SUCCESS, e2) ->
  JxlEncoderAddImageFrame e2 pixel_format (pixels img)
    (size_mul 4 (len (pixels img))) = (JXL_ENC_SUCCESS, e3) ->
  drain_init 64 e3 [] = Normal s0 ->
  loop_run s0 chunks s ->
  process_result s = JXL_ENC_ERROR ->
  (length chunks <= fuel)%nat ->
  main host 3 input out xs0 ys0 fuel
  = Some (Normal {| exit_code := 3; output := None |}).
Proof.
  intros Hread Hret Hr Hd Hf Hinit Hrun Hend Hfuel.
  unfold main. simpl. rewrite Hread, Hret. simpl.
  unfold EncodeJxlOneshot, EncodeJxlOneshot_from.
  rewrite Hr. simpl. rewrite Hd. simpl. rewrite Hf. simpl.
  rewrite (drain_run 64 e3 [] s0 s chunks fuel Hinit Hrun);
    [|rewrite Hend; discriminate|exact Hfuel].
  rewrite Hend. reflexivity.
Qed.

End MainProperties.

Lemma main_exit_code_witness :
  let r := {| exit_code := 2; output := None |} in
  main (H := stub_encoder three_then_done) true 3
    (regular_file pfm_2x1_short) roomy 0 0 4 = Some (Normal r) /\
  0 <= exit_code r <= 4 /\
  (exit_code r = 1 <-> 3 <> 3) /\
  (1 <= exit_code r <= 3 -> output r = None) /\
  (exit_code r = 0 ->
   exists img enc_out,
     ReadPFM true (regular_file pfm_2x1_short) [] 0 0 = Normal img /\
     ret img = true /\
     EncodeJxlOneshot (H := stub_encoder three_then_done) 4
       (pixels img) (xsize img) (ysize img) [] = Some (Normal enc_out) /\
     ok enc_out = true /\ output r = Some (compressed enc_out)).
Proof.
  intros r. split; [reflexivity|].
  apply (main_exit_code (H := stub_encoder three_then_done) true 3
           (regular_file pfm_2x1_short) roomy 0 0 4 r).
  reflexivity.
Defined.

Lemma main_end_to_end_witness :
  main (H := stub_encoder three_then_done) true 3 (regular_file pfm_1x2)
    roomy 7 7 4
  = Some (Normal {| exit_code := 0;
                    output := Some [x01; x02; x03; x04; x05; x06; x07; x08] |}).
Proof.
  eapply (main_end_to_end (H := stub_encoder three_then_done) true
            (regular_file pfm_1x2) roomy 7 7 4
            {| ret := true; pixels := pixels image_1x2; xsize := 1;
               ysize := 2; message := None |} _ _ _ _
            [[x01; x02; x03]; [x04]; [x05; x06]; [x07; x08]]).
  - reflexivity.
  - reflexivity.
  - reflexivity.
  - reflexivity.
  - reflexivity.
  - vm_compute. reflexivity.
  - eapply run_more; [reflexivity|reflexivity|vm_compute; reflexivity|].
    eapply run_more; [reflexivity|reflexivity|vm_compute; reflexivity|].
    eapply run_more; [reflexivity|reflexivity|vm_compute; reflexivity|].
    eapply run_more; [reflexivity|reflexivity|vm_compute; reflexivity|].
    apply run_here.
  - reflexivity.
  - simpl. lia.
  - reflexivity.
  - vm_compute. discriminate.
  - reflexivity.
Defined.

Lemma main_encode_error_witness :
  main (H := stub_encoder output_then_error) true 3 (regular_file pfm_1x2)
    roomy 7 7 2
  = Some (Normal {| exit_code := 3; output := None |}).
Proof.
  eapply (main_encode_error (H := stub_encoder output_then_error) true
            (regular_file pfm_1x2) roomy 7 7 2
            {| ret := true; pixels := pixels image_1x2; xsize := 1;
               ysize := 2; message := None |} _ _ _ _
            [[x01; x02]; []]).
  - reflexivity.
  - reflexivity.
  - reflexivity.
  - reflexivity.
  - reflexivity.
  - vm_compute. reflexivity.
  - eapply run_more; [reflexivity|reflexivity|vm_compute; reflexivity|].
    eapply run_more; [reflexivity|reflexivity|vm_compute; reflexivity|].
    apply run_here.
  - reflexivity.
  - simpl. lia.
Defined.
